(** * api_server.py: product aggregation and scrape orchestration

    A shallow embedding of the request handlers of [src/api_server.py]:
    [get_all_products], [get_products_by_site],
    [get_products_by_site_and_location], [scrape_products],
    [parse_html_file] and [upload_and_parse].

    Modelling conventions.
    - A Python [str] is a [string] (a sequence of bytes); [str.lower] is
      the ASCII case folding (letters outside ASCII are left alone),
      [a in b] the substring test.
    - A Python [dict] used as a mapping is a [gmap]; [list(set(xs))] is a
      [gset] (Python leaves the order of that list unspecified).
    - The directory [OUTPUTS_DIR] is the list of its entries in listing
      order; [Path.glob] filters that list with a wildcard pattern.
    - [open]/[json.load] either raise (the entry is unreadable or is not
      JSON) or yield an artifact: one [ProductData] object or a list of
      them.  Each key of such an object may be absent, which is what the
      handlers' [.get(key, default)] calls provide for.  What
      [get_all_products] does with JSON of another shape, which nothing
      validates, is [get_all_products_raw]; the two agree on artifacts.
    - [os.path.getmtime] is an integer time stamp; only the order of time
      stamps is used.
    - [print] appends a line to a log that is returned next to the
      response; a raised [HTTPException] is the [HTTPException] result.
    - A child process is what the handler sees of it: the exception raised
      when it could not be run, or its exit status and its [stderr].
    - A [pathlib.Path] is the record of what the handlers read of it: its
      text, its existence, its [suffix] and its [stem]. *)

From Stdlib Require Import Floats.PrimFloat Ascii String ssreflect.
From stdpp Require Import gmap strings list sorting.

Local Open Scope general_if_scope.
Local Open Scope string_scope.
Local Open Scope list_scope.

(** ** Python strings *)

Module Str.

(** [c.lower()] for one ASCII character. *)
Definition lower_ascii (c : ascii) : ascii :=
  let n := N_of_ascii c in
  if ((65 <=? n) && (n <=? 90))%N then ascii_of_N (n + 32) else c.

(** [s.lower()] *)
Fixpoint lower (s : string) : string :=
  match s with
  | EmptyString => EmptyString
  | String c s' => String (lower_ascii c) (lower s')
  end.

(** [s.startswith(p)] *)
Fixpoint startswith (p s : string) : bool :=
  match p, s with
  | EmptyString, _ => true
  | String _ _, EmptyString => false
  | String a p', String b s' => if Ascii.eqb a b then startswith p' s' else false
  end.

(** [needle in hay] on two strings. *)
Fixpoint contains (needle hay : string) : bool :=
  startswith needle hay ||
  match hay with
  | EmptyString => false
  | String _ hay' => contains needle hay'
  end.

(** [x in xs] for a list of strings. *)
Definition in_list (x : string) (xs : list string) : bool :=
  existsb (String.eqb x) xs.

(** [sep.join(xs)] *)
Fixpoint join (sep : string) (xs : list string) : string :=
  match xs with
  | [] => ""
  | [x] => x
  | x :: xs' => x +:+ sep +:+ join sep xs'
  end.

(** Two strings that differ at most in the case of ASCII letters. *)
Fixpoint same_letters (s t : string) : Prop :=
  match s, t with
  | EmptyString, EmptyString => True
  | String a s', String b t' =>
      (a = b \/ lower_ascii a = b \/ a = lower_ascii b) /\ same_letters s' t'
  | _, _ => False
  end.

(** [fnmatch]: the wildcard matching behind [Path.glob] for one path
    component (case-sensitive, as on POSIX).  The patterns of this
    program are built from literal characters and [*] only. *)
Fixpoint fnmatch (pat name : string) : bool :=
  match pat with
  | EmptyString => match name with EmptyString => true | _ => false end
  | String c pat' =>
      if Ascii.eqb c "*"%char then
        (fix star (n : string) : bool :=
           fnmatch pat' n ||
           match n with
           | EmptyString => false
           | String _ n' => star n'
           end) name
      else
        match name with
        | EmptyString => false
        | String d name' => if Ascii.eqb c d then fnmatch pat' name' else false
        end
  end.

(** Strict UTF-8 well-formedness of a byte string: [bytes.decode()]
    raises [UnicodeDecodeError] exactly when this fails. *)
Definition in_range (lo hi : N) (c : ascii) : bool :=
  let n := N_of_ascii c in ((lo <=? n) && (n <=? hi))%N.

Definition cont (c : ascii) : bool := in_range 128 191 c.

Fixpoint utf8_valid (b : string) : bool :=
  match b with
  | EmptyString => true
  | String c0 r0 =>
      if in_range 0 127 c0 then utf8_valid r0
      else
        match r0 with
        | EmptyString => false
        | String c1 r1 =>
            if in_range 194 223 c0 then cont c1 && utf8_valid r1
            else
              match r1 with
              | EmptyString => false
              | String c2 r2 =>
                  if in_range 224 239 c0 then
                    (if in_range 224 224 c0 then in_range 160 191 c1
                     else if in_range 237 237 c0 then in_range 128 159 c1
                     else cont c1)
                    && cont c2 && utf8_valid r2
                  else
                    match r2 with
                    | EmptyString => false
                    | String c3 r3 =>
                        in_range 240 244 c0 &&
                        (if in_range 240 240 c0 then in_range 144 191 c1
                         else if in_range 244 244 c0 then in_range 128 143 c1
                         else cont c1)
                        && cont c2 && cont c3 && utf8_valid r3
                    end
              end
        end
  end.

End Str.

(** ** Data model *)

(** [class Product(BaseModel)] *)
Module Product.
Record t := {
  name : string;
  mrp : option float;
  price : option float;
  discount : option float;
  discountAmount : option float;
  isOutOfStock : bool
}.
End Product.

(** [class ProductData(BaseModel)], as read back from a JSON object: a
    key may be missing. *)
Module ProductData.
Record t := {
  site : option string;
  location : option string;
  products : option (list Product.t);
  totalProducts : option Z;
  filename : option string
}.
End ProductData.

(** The value [json.load] returns for an artifact. *)
Inductive artifact :=
| JList (data : list ProductData.t)
| JDict (data : ProductData.t).

(** Exceptions the handlers catch. *)
Inductive exn :=
| ReadError            (* [open] or [json.load] raised *)
| SubprocessError      (* [create_subprocess_exec] or [communicate] raised *)
| UnicodeDecodeError.  (* [stderr.decode()] raised *)

(** One entry of a directory. *)
Record File := {
  path : string;                 (* the entry's name *)
  getmtime : Z;                  (* [os.path.getmtime] *)
  load : exn + artifact          (* [open] followed by [json.load] *)
}.

(** [SUPPORTED_SITES] *)
Definition SUPPORTED_SITES : list string :=
  ["dmart"; "jiomart"; "naturesbasket"; "zepto"; "swiggy"].

(** [directory.glob(pattern)] *)
Definition glob (dir : list File) (pattern : string) : list File :=
  List.filter (fun f => Str.fnmatch pattern (path f)) dir.

(** Lines written by [print]. *)
Inductive log_line :=
| ErrorReading (json_file : string) (e : exn)
| ScrapingWarning (error_msg : string).

(** The outcome of a handler: a response body or a raised
    [HTTPException(status_code, detail)]. *)
Inductive detail_text :=
| Text (s : string)
| ErrorText (prefix : string) (e : exn).   (* f"{prefix}{str(e)}" *)

Inductive http (A : Type) :=
| Ok (body : A)
| HTTPException (status_code : nat) (detail : detail_text).
Arguments Ok {A} body.
Arguments HTTPException {A} status_code detail.

(** [.get(key, default)] on the keys the handlers read. *)
Definition get {A} (field : option A) (default : A) : A :=
  match field with Some v => v | None => default end.

(** ** GET /api/products *)

(** The value stored under each key of [sites]. *)
Record SiteEntry := {
  se_location : string;
  se_products : list Product.t;
  se_total : nat
}.

Inductive AllProductsResponse :=
| NoParsedData (message : string) (products : list Product.t) (total : nat)
| AllProducts (message : string) (sites : gmap string SiteEntry)
    (all_products : list Product.t) (total_products total_sites : nat).

(** Body of [for json_file in json_files] in [get_all_products]. *)
Definition load_json_file (st : list log_line * list ProductData.t) (json_file : File)
  : list log_line * list ProductData.t :=
  let '(log, results) := st in
  match load json_file with
  | inr (JList data) => (log, results ++ data)
  | inr (JDict data) => (log, results ++ [data])
  | inl e => (log ++ [ErrorReading (path json_file) e], results)
  end.

Definition load_json_files (json_files : list File) : list log_line * list ProductData.t :=
  fold_left load_json_file json_files ([], []).

(** Body of [for result in results] in [get_all_products]. *)
Definition group_result (st : gmap string SiteEntry * list Product.t) (result : ProductData.t)
  : gmap string SiteEntry * list Product.t :=
  let '(sites, all_products) := st in
  let site := get (ProductData.site result) "unknown" in
  let location := get (ProductData.location result) "Unknown" in
  let products := get (ProductData.products result) [] in
  let sites :=
    match sites !! site with
    | None => <[site := {| se_location := location; se_products := []; se_total := 0 |}]> sites
    | Some _ => sites
    end in
  let sites :=
    alter (fun e => {| se_location := se_location e;
                       se_products := se_products e ++ products;
                       se_total := se_total e + length products |}) site sites in
  (sites, all_products ++ products).

Definition group_results (results : list ProductData.t) : gmap string SiteEntry * list Product.t :=
  fold_left group_result results (∅, []).

Definition get_all_products (OUTPUTS_DIR : list File)
  : list log_line * http AllProductsResponse :=
  let json_files := glob OUTPUTS_DIR "*-parsed.json" in
  match json_files with
  | [] => ([], Ok (NoParsedData "No parsed data found" [] 0))
  | _ =>
      let '(log, results) := load_json_files json_files in
      let '(sites, all_products) := group_results results in
      (log, Ok (AllProducts "Success" sites all_products
                  (length all_products) (size sites)))
  end.

(** ** GET /api/products/{site} *)

Inductive SiteResponse :=
| SiteNoData (message site : string) (products : list Product.t) (total : nat)
| SiteProducts (message site : string) (locations : gmap string (list Product.t))
    (products : list Product.t) (total_products total_locations : nat).

(** [detail] of the 400 raised for a site outside [SUPPORTED_SITES]. *)
Definition unsupported_site (site : string) : detail_text :=
  Text ("Unsupported site: " +:+ site +:+ ". Supported sites: "
        +:+ Str.join ", " SUPPORTED_SITES).

(** The two patterns tried for a site, in the order the handlers glob them;
    the second list is appended to the first. *)
Definition site_json_files (OUTPUTS_DIR : list File) (site : string) : list File :=
  glob OUTPUTS_DIR (site +:+ "*-parsed.json")
  ++ glob OUTPUTS_DIR ("*" +:+ site +:+ "*-parsed.json").

(** [r.get('site', '').lower() == site] *)
Definition site_is (site : string) (r : ProductData.t) : bool :=
  String.eqb (Str.lower (get (ProductData.site r) "")) site.

(** Body of [for json_file in json_files] in [get_products_by_site]. *)
Definition load_site_file (site : string)
    (st : list log_line * list ProductData.t) (json_file : File)
  : list log_line * list ProductData.t :=
  let '(log, results) := st in
  match load json_file with
  | inr (JList data) => (log, results ++ List.filter (site_is site) data)
  | inr (JDict data) => if site_is site data then (log, results ++ [data]) else (log, results)
  | inl e => (log ++ [ErrorReading (path json_file) e], results)
  end.

(** Body of [for result in results] in [get_products_by_site]. *)
Definition group_location (st : gmap string (list Product.t) * list Product.t)
    (result : ProductData.t) : gmap string (list Product.t) * list Product.t :=
  let '(locations, all_products) := st in
  let location := get (ProductData.location result) "Unknown" in
  let products := get (ProductData.products result) [] in
  let locations :=
    match locations !! location with
    | None => <[location := []]> locations
    | Some _ => locations
    end in
  let locations := alter (fun ps => ps ++ products) location locations in
  (locations, all_products ++ products).

Definition get_products_by_site (OUTPUTS_DIR : list File) (site : string)
  : list log_line * http SiteResponse :=
  let site := Str.lower site in
  if negb (Str.in_list site SUPPORTED_SITES) then
    ([], HTTPException 400 (unsupported_site site))
  else
    let no_data := Ok (SiteNoData ("No data found for site: " +:+ site) site [] 0) in
    let json_files := site_json_files OUTPUTS_DIR site in
    match json_files with
    | [] => ([], no_data)
    | _ =>
        let '(log, results) := fold_left (load_site_file site) json_files ([], []) in
        match results with
        | [] => (log, no_data)
        | _ =>
            let '(locations, all_products) := fold_left group_location results (∅, []) in
            (log, Ok (SiteProducts "Success" site locations all_products
                        (length all_products) (size locations)))
        end
    end.

(** ** GET /api/products/{site}/{location} *)

Inductive SiteLocationResponse :=
| SiteLocationNoData (message site location : string) (products : list Product.t) (total : nat)
| SiteLocationProducts (message site location : string) (products : list Product.t)
    (total_products : nat).

(** The test of the inner loop: [result_site == site and location in
    result_location], both sides of each comparison lower-cased. *)
Definition result_matches (site location : string) (result : ProductData.t) : bool :=
  let result_site := Str.lower (get (ProductData.site result) "") in
  let result_location := Str.lower (get (ProductData.location result) "") in
  String.eqb result_site site && Str.contains location result_location.

(** Body of [for json_file in json_files] in
    [get_products_by_site_and_location]. *)
Definition load_matching_file (site location : string)
    (st : list log_line * list ProductData.t) (json_file : File)
  : list log_line * list ProductData.t :=
  let '(log, matching_results) := st in
  match load json_file with
  | inr data =>
      let results := match data with JList l => l | JDict d => [d] end in
      (log, fold_left (fun acc result =>
                         if result_matches site location result
                         then acc ++ [result] else acc)
                      results matching_results)
  | inl e => (log ++ [ErrorReading (path json_file) e], matching_results)
  end.

(** [matching_results] after the loop over the files, with the log. *)
Definition matching_results (OUTPUTS_DIR : list File) (site location : string)
  : list log_line * list ProductData.t :=
  fold_left (load_matching_file site location)
            (site_json_files OUTPUTS_DIR site) ([], []).

Definition get_products_by_site_and_location (OUTPUTS_DIR : list File)
    (site location : string) : list log_line * http SiteLocationResponse :=
  let site := Str.lower site in
  let location := Str.lower location in
  if negb (Str.in_list site SUPPORTED_SITES) then
    ([], HTTPException 400 (unsupported_site site))
  else
    match site_json_files OUTPUTS_DIR site with
    | [] => ([], Ok (SiteLocationNoData ("No data found for site: " +:+ site)
                       site location [] 0))
    | _ =>
        let '(log, matching) := matching_results OUTPUTS_DIR site location in
        match matching with
        | [] => (log, Ok (SiteLocationNoData
                            ("No data found for site: " +:+ site
                             +:+ ", location: " +:+ location)
                            site location [] 0))
        | _ =>
            let all_products :=
              fold_left (fun acc result => acc ++ get (ProductData.products result) [])
                        matching [] in
            (log, Ok (SiteLocationProducts "Success" site location all_products
                        (length all_products)))
        end
    end.

(** ** POST /api/scrape *)

(** [class ScrapeRequest(BaseModel)] *)
Module ScrapeRequest.
Record t := { location : string; product : string }.
End ScrapeRequest.

(** What [communicate()] leaves behind for a finished child process. *)
Record Process := {
  returncode : Z;
  stderr : string     (* raw bytes *)
}.

(** What one run of the handler observes of its surroundings, in the
    order it looks. *)
Record World := {
  (* [node location-selector-orchestrator.js product location] *)
  orchestrator : exn + Process;
  (* the entries of [Path("output")] after the scrape, if it exists *)
  output_dir : option (list string);
  (* [node unified-html-parser.js output] *)
  parser : exn + Process;
  (* [OUTPUTS_DIR] after the parse *)
  outputs_dir : list File
}.

Record ScrapeResponse := {
  message : string;
  location : string;
  product : string;
  data : artifact;
  total_sites : option nat;      (* the key is absent when no HTML was found *)
  sites_scraped : gset string
}.

(** [stderr.decode()] *)
Definition decode (b : string) : exn + string :=
  if Str.utf8_valid b then inr b else inl UnicodeDecodeError.

(** [sorted(files, key=os.path.getmtime, reverse=True)]: a stable sort,
    entries of equal key keep their order. *)
Fixpoint insert_by_mtime (x : File) (l : list File) : list File :=
  match l with
  | [] => [x]
  | y :: l' =>
      if (getmtime y <=? getmtime x)%Z then x :: l
      else y :: insert_by_mtime x l'
  end.

Fixpoint sorted_by_mtime_reverse (l : list File) : list File :=
  match l with
  | [] => []
  | x :: l' => insert_by_mtime x (sorted_by_mtime_reverse l')
  end.

(** [item.get('totalProducts', 0) > 0] *)
Definition has_products (item : ProductData.t) : bool :=
  (0 <? get (ProductData.totalProducts item) 0)%Z.

(** [[item.get('site', 'unknown') for item in data
      if item.get('totalProducts', 0) > 0]] *)
Definition scraped_sites_of (data : list ProductData.t) : list string :=
  map (fun item => get (ProductData.site item) "unknown")
      (List.filter has_products data).

(** Body of [for json_file in individual_files] in the fallback branch. *)
Definition load_individual_file
    (st : list log_line * list ProductData.t * list string) (json_file : File)
  : list log_line * list ProductData.t * list string :=
  let '(log, all_data, sites_scraped) := st in
  match load json_file with
  | inr (JList data) => (log, all_data ++ data, sites_scraped ++ scraped_sites_of data)
  | inr (JDict data) =>
      (log, all_data ++ [data],
       if has_products data
       then sites_scraped ++ [get (ProductData.site data) "unknown"]
       else sites_scraped)
  | inl e => (log ++ [ErrorReading (path json_file) e], all_data, sites_scraped)
  end.

Definition scrape_error {A} (e : exn) : http A :=
  HTTPException 500 (ErrorText "Error scraping products: " e).

(** [stderr.decode() if stderr else "Unknown error"] *)
Definition error_msg (process : Process) : exn + string :=
  match stderr process with
  | EmptyString => inr "Unknown error"
  | b => decode b
  end.

(** [html_files]: empty unless [Path("output")] exists, then
    [output_dir.glob("*.html")]. *)
Definition html_files (w : World) : list string :=
  match output_dir w with
  | Some entries => List.filter (Str.fnmatch "*.html") entries
  | None => []
  end.

(** The handler after the orchestrator has finished and the warning, if
    any, has been printed. *)
Definition scrape_after_orchestrator (request : ScrapeRequest.t) (w : World)
  : list log_line * http ScrapeResponse :=
  let location := ScrapeRequest.location request in
  let product := ScrapeRequest.product request in
  match html_files w with
  | [] =>
      ([], Ok {| message := "Scraping completed but no HTML files found";
                 location := location; product := product;
                 data := JList []; total_sites := None; sites_scraped := ∅ |})
  | _ =>
      match parser w with
      | inl e => ([], scrape_error e)
      | inr parse_process =>
          let OUTPUTS_DIR := outputs_dir w in
          let json_files :=
            sorted_by_mtime_reverse (glob OUTPUTS_DIR "parsed-results-*.json") in
          match json_files with
          | newest :: _ =>
              match load newest with
              | inl e => ([], scrape_error e)
              | inr data =>
                  let sites_scraped :=
                    match data with
                    | JList l => scraped_sites_of l
                    | JDict d =>
                        if has_products d
                        then [get (ProductData.site d) "unknown"] else []
                    end in
                  ([], Ok {| message := "Successfully scraped and parsed products";
                             location := location; product := product;
                             data := data;
                             total_sites :=
                               Some (match data with JList l => length l | JDict _ => 1 end);
                             sites_scraped := list_to_set sites_scraped |})
              end
          | [] =>
              let individual_files := glob OUTPUTS_DIR "*-parsed.json" in
              let '(log, all_data, sites_scraped) :=
                fold_left load_individual_file individual_files ([], [], []) in
              (log, Ok {| message := "Successfully scraped and parsed products";
                          location := location; product := product;
                          data := JList all_data;
                          total_sites := Some (length all_data);
                          sites_scraped := list_to_set sites_scraped |})
          end
      end
  end.

Definition scrape_products (request : ScrapeRequest.t) (w : World)
  : list log_line * http ScrapeResponse :=
  match orchestrator w with
  | inl e => ([], scrape_error e)
  | inr process =>
      if (returncode process =? 0)%Z then scrape_after_orchestrator request w
      else
        match error_msg process with
        | inl e => ([], scrape_error e)
        | inr error_msg =>
            let '(log, response) := scrape_after_orchestrator request w in
            (ScrapingWarning error_msg :: log, response)
        end
  end.

(** ** Vocabulary of the statements *)

(** The records of an artifact, a list artifact flattened. *)
Definition records_of (a : artifact) : list ProductData.t :=
  match a with JList l => l | JDict d => [d] end.

(** The records a file contributes: none when it cannot be loaded. *)
Definition file_records (f : File) : list ProductData.t :=
  match load f with inr a => records_of a | inl _ => [] end.

(** The line printed for a file that cannot be loaded. *)
Definition file_errors (f : File) : list log_line :=
  match load f with inl e => [ErrorReading (path f) e] | inr _ => [] end.

Definition loaded_records (files : list File) : list ProductData.t :=
  concat (map file_records files).

Definition read_errors (files : list File) : list log_line :=
  concat (map file_errors files).

(** The key a record is filed under by [get_all_products], its location
    and its products, defaults applied. *)
Definition site_key (r : ProductData.t) : string := get (ProductData.site r) "unknown".
Definition location_of (r : ProductData.t) : string := get (ProductData.location r) "Unknown".
Definition products_of (r : ProductData.t) : list Product.t := get (ProductData.products r) [].

(** The records filed under one key, in order; all their products; the
    sum of [len(products)]. *)
Definition with_site (s : string) (rs : list ProductData.t) : list ProductData.t :=
  filter (λ r, site_key r = s) rs.

Definition all_products_of (rs : list ProductData.t) : list Product.t :=
  concat (map products_of rs).

Definition sum_len_products (rs : list ProductData.t) : nat :=
  sum_list (map (λ r, length (products_of r)) rs).

(** The files that load. *)
Definition readable (f : File) : bool :=
  match load f with inr _ => true | inl _ => false end.

(** All products of one file, as read. *)
Definition file_products (f : File) : list Product.t :=
  all_products_of (file_records f).

(** The product list of a GET /api/products response, under either of
    its two shapes. *)
Definition response_products (body : AllProductsResponse) : list Product.t :=
  match body with
  | NoParsedData _ products _ => products
  | AllProducts _ _ all_products _ _ => all_products
  end.

(** The product list of a GET /api/products/{site}/{location} response,
    under either of its two shapes. *)
Definition site_location_products (body : SiteLocationResponse) : list Product.t :=
  match body with
  | SiteLocationNoData _ _ _ products _ => products
  | SiteLocationProducts _ _ _ products _ => products
  end.

(** The same surroundings, had the orchestrator exited with status 0. *)
Definition exits_zero (w : World) : World :=
  {| orchestrator :=
       match orchestrator w with
       | inr process => inr {| returncode := 0; stderr := stderr process |}
       | inl e => inl e
       end;
     output_dir := output_dir w;
     parser := parser w;
     outputs_dir := outputs_dir w |}.

(** The batch artifacts in the store, in listing order. *)
Definition batch_files (w : World) : list File :=
  glob (outputs_dir w) "parsed-results-*.json".

(** The exception, if any, raised between the orchestrator's exit and the
    response: by the start of the parser or by the load of the batch
    artifact picked. *)
Definition raised_after_orchestrator (w : World) : option exn :=
  match html_files w with
  | [] => None
  | _ =>
      match parser w with
      | inl e => Some e
      | inr _ =>
          match sorted_by_mtime_reverse (batch_files w) with
          | newest :: _ =>
              match load newest with inl e => Some e | inr _ => None end
          | [] => None
          end
      end
  end.

(** An exception raised inside the handler once the orchestrator has
    returned [process]. *)
Definition raised (w : World) (process : Process) (e : exn) : Prop :=
  error_msg process = inl e ∨ raised_after_orchestrator w = Some e.

(** The orchestrator ran and, if a warning was due, its text decoded. *)
Definition orchestrator_done (w : World) : Prop :=
  ∃ process, orchestrator w = inr process ∧
             (returncode process = 0%Z ∨ ∃ msg, error_msg process = inr msg).

(** What a client reads off an answer of GET /api/products: the [total]
    of every site, [total_products] (or [total]) and [total_sites]. *)
Definition site_totals (r : http AllProductsResponse) : gmap string nat :=
  match r with
  | Ok (AllProducts _ sites _ _ _) => se_total <$> sites
  | _ => ∅
  end.

Definition total_products_of (r : http AllProductsResponse) : nat :=
  match r with
  | Ok (AllProducts _ _ _ total_products _) => total_products
  | Ok (NoParsedData _ _ total) => total
  | HTTPException _ _ => 0
  end.

Definition total_sites_of (r : http AllProductsResponse) : nat :=
  match r with
  | Ok (AllProducts _ _ _ _ total_sites) => total_sites
  | _ => 0
  end.

(** [sum(entry['total'] for entry in sites.values())] *)
Definition sum_site_totals (sites : gmap string SiteEntry) : nat :=
  sum_list (se_total <$> (map_to_list sites).*2).

(** A directory whose records have their [totalProducts] and [filename]
    keys rewritten by [g], everything else as it was. *)
Definition set_meta (g : ProductData.t → option Z * option string)
    (r : ProductData.t) : ProductData.t :=
  {| ProductData.site := ProductData.site r;
     ProductData.location := ProductData.location r;
     ProductData.products := ProductData.products r;
     ProductData.totalProducts := fst (g r);
     ProductData.filename := snd (g r) |}.

Definition set_meta_file (g : ProductData.t → option Z * option string)
    (f : File) : File :=
  {| path := path f; getmtime := getmtime f;
     load := match load f with
             | inr (JList data) => inr (JList (set_meta g <$> data))
             | inr (JDict data) => inr (JDict (set_meta g data))
             | inl e => inl e
             end |}.


(** [results] of [get_products_by_site] after its loop over the files. *)
Definition site_results (dir : list File) (site : string) : list ProductData.t :=
  snd (fold_left (load_site_file site) (site_json_files dir site) ([], [])).

(** The records located at [l], a missing [location] counting as
    [Unknown]. *)
Definition at_location (l : string) (rs : list ProductData.t) : list ProductData.t :=
  filter (λ r, location_of r = l) rs.

(** The product list of a GET /api/products/{site} answer, under either of
    its two shapes. *)
Definition site_products (body : SiteResponse) : list Product.t :=
  match body with
  | SiteNoData _ _ products _ => products
  | SiteProducts _ _ _ products _ _ => products
  end.


(** [total_products] (or [total]) of a GET /api/products/{site} answer. *)
Definition site_total_products (r : http SiteResponse) : nat :=
  match r with
  | Ok (SiteProducts _ _ _ _ total_products _) => total_products
  | Ok (SiteNoData _ _ _ total) => total
  | HTTPException _ _ => 0
  end.

(** [location in result.get('location', '').lower()] *)
Definition located_in (location : string) (r : ProductData.t) : bool :=
  Str.contains location (Str.lower (get (ProductData.location r) "")).


(** The same surroundings with another outcome of the parser, and with
    another store. *)
Definition set_parser (p : exn + Process) (w : World) : World :=
  {| orchestrator := orchestrator w; output_dir := output_dir w;
     parser := p; outputs_dir := outputs_dir w |}.

Definition set_outputs_dir (dir : list File) (w : World) : World :=
  {| orchestrator := orchestrator w; output_dir := output_dir w;
     parser := parser w; outputs_dir := dir |}.

(** Newest first. *)
Definition newer_or_equal (a b : File) : Prop := (getmtime b ≤ getmtime a)%Z.


(** ** POST /api/parse and POST /api/upload *)

(** A [pathlib.Path] as the two handlers read it: its text, whether it
    exists, and its [suffix] and [stem] as [pathlib] computes them. *)
Module Path.
Record t := { str : string; is_there : bool; suffix : string; stem : string }.
End Path.

(** [UploadFile]: the name the client gave and the bytes sent. *)
Module UploadFile.
Record t := { filename : string; content : string }.
End UploadFile.

(** The body of both handlers; [filename] is set by an upload only. *)
Module ParseResponse.
Record t := { message : string; filename : option string; data : artifact }.
End ParseResponse.

(** What a run of [node unified-html-parser.js <path>] shows: how the
    child process ended and [OUTPUTS_DIR] afterwards. *)
Record ParserRun := {
  parse_process : exn + Process;
  outputs_after : list File
}.

(** [s.endswith(suffix)] *)
Fixpoint endswith (s suffix : string) : bool :=
  String.eqb s suffix ||
  match s with
  | EmptyString => false
  | String _ s' => endswith s' suffix
  end.

(** [json_file.exists()] and then [open(json_file)]: the entry of
    [OUTPUTS_DIR] with that name. *)
Definition find_file (dir : list File) (name : string) : option File :=
  List.find (λ f, String.eqb (path f) name) dir.

(** The steps the two handlers share, from the start of the parser to
    [json.load]: [error_prefix] is the text of the handler's last
    [except] clause, [stem] the stem of the HTML path. *)
Definition parsed_json (error_prefix stem : string) (run : ParserRun) : http artifact :=
  match parse_process run with
  | inl e => HTTPException 500 (ErrorText error_prefix e)
  | inr process =>
      if negb (returncode process =? 0)%Z then
        match error_msg process with
        | inl e => HTTPException 500 (ErrorText error_prefix e)
        | inr error_msg => HTTPException 500 (Text ("Parsing failed: " +:+ error_msg))
        end
      else
        match find_file (outputs_after run) (stem +:+ "-parsed.json") with
        | None => HTTPException 500 (Text "JSON file was not generated")
        | Some json_file =>
            match load json_file with
            | inl e => HTTPException 500 (ErrorText error_prefix e)
            | inr data => Ok data
            end
        end
  end.

(** [html_path] is [Path(file_path)]. *)
Definition parse_html_file (file_path : string) (html_path : Path.t)
    (run : ParserRun) : http ParseResponse.t :=
  if negb (Path.is_there html_path) then
    HTTPException 404 (Text ("File not found: " +:+ file_path))
  else if negb (String.eqb (Path.suffix html_path) ".html") then
    HTTPException 400 (Text "File must be an HTML file")
  else
    match parsed_json "Error parsing file: " (Path.stem html_path) run with
    | Ok data =>
        Ok {| ParseResponse.message := "Successfully parsed HTML file";
              ParseResponse.filename := None;
              ParseResponse.data := data |}
    | HTTPException status_code detail => HTTPException status_code detail
    end.

(** A file written by a handler. *)
Inductive fs_effect :=
| Saved (upload_path content : string).

(** [upload_path] is [OUTPUTS_DIR / file.filename]; [save] is the
    exception, if any, raised inside [with open(upload_path, 'wb')] (what
    is then left on disk is not modelled).  The files written come first
    in the result. *)
Definition upload_and_parse (file : UploadFile.t) (upload_path : Path.t)
    (save : option exn) (run : ParserRun)
  : list fs_effect * http ParseResponse.t :=
  if negb (endswith (UploadFile.filename file) ".html") then
    ([], HTTPException 400 (Text "File must be an HTML file"))
  else
    match save with
    | Some e => ([], HTTPException 500 (ErrorText "Error processing file: " e))
    | None =>
        ([Saved (Path.str upload_path) (UploadFile.content file)],
         match parsed_json "Error processing file: " (Path.stem upload_path) run with
         | Ok data =>
             Ok {| ParseResponse.message := "Successfully uploaded and parsed HTML file";
                   ParseResponse.filename := Some (UploadFile.filename file);
                   ParseResponse.data := data |}
         | HTTPException status_code detail => HTTPException status_code detail
         end)
    end.

(** The status a client sees: 200 for a body. *)
Definition status_of {A} (r : http A) : nat :=
  match r with Ok _ => 200 | HTTPException status_code _ => status_code end.

(** No [*] in a string. *)
Fixpoint star_free (s : string) : bool :=
  match s with
  | EmptyString => true
  | String c s' => negb (Ascii.eqb c "*"%char) && star_free s'
  end.


(** Bytes below 128 only. *)
Fixpoint is_ascii (b : string) : bool :=
  match b with
  | EmptyString => true
  | String c b' => Str.in_range 0 127 c && is_ascii b'
  end.


(** ** GET /api/products on JSON that nothing has validated *)

(** [json.load] returns whatever JSON the file holds, and no handler
    checks it against [ProductData].  The definitions below follow
    [get_all_products] on such values: a key of an object is absent,
    [null], or a value of the type [ProductData] declares for it; an
    element of a list, or the whole file, may be no object at all.  (The
    elements of [products] are never inspected by the handler.) *)
Inductive field (A : Type) :=
| Absent
| Null
| Value (a : A).
Arguments Absent {A}.
Arguments Null {A}.
Arguments Value {A} a.

Module RawData.
Record t := {
  site : field string;
  location : field string;
  products : field (list Product.t);
  totalProducts : field Z;
  filename : field string
}.
End RawData.

(** A JSON value that is neither an object nor a list, by its Python
    type. *)
Inductive scalar :=
| JInt
| JFloat
| JStr
| JBool
| JNull.

(** [type(v).__name__] *)
Definition type_name (k : scalar) : string :=
  match k with
  | JInt => "int"
  | JFloat => "float"
  | JStr => "str"
  | JBool => "bool"
  | JNull => "NoneType"
  end.

(** An element of a JSON list, and the value of a whole file. *)
Inductive item :=
| ItemObject (r : RawData.t)
| ItemScalar (k : scalar)
| ItemArray.

Inductive json_value :=
| JsonArray (items : list item)
| JsonObject (r : RawData.t)
| JsonScalar (k : scalar).

Record RawFile := {
  raw_path : string;
  raw_load : exn + json_value
}.

Definition glob_raw (dir : list RawFile) (pattern : string) : list RawFile :=
  List.filter (fun f => Str.fnmatch pattern (raw_path f)) dir.

(** [d.get(key, default)]: [None] stands for Python's [None], the value
    of a key that holds [null]. *)
Definition raw_get {A} (f : field A) (default : A) : option A :=
  match f with
  | Absent => Some default
  | Null => None
  | Value a => Some a
  end.

(** The value stored under each key of [sites]; a key or a location may
    be [None]. *)
Record RawSiteEntry := {
  rse_location : option string;
  rse_products : list Product.t;
  rse_total : nat
}.

Inductive RawAllProductsResponse :=
| RawNoParsedData (message : string) (products : list Product.t) (total : nat)
| RawAllProducts (message : string) (sites : gmap (option string) RawSiteEntry)
    (all_products : list Product.t) (total_products total_sites : nat).

(** Body of [for json_file in json_files]: a list is spliced in, any
    other value is appended as it is. *)
Definition raw_load_json_file (st : list log_line * list item) (json_file : RawFile)
  : list log_line * list item :=
  let '(log, results) := st in
  match raw_load json_file with
  | inr (JsonArray data) => (log, results ++ data)
  | inr (JsonObject data) => (log, results ++ [ItemObject data])
  | inr (JsonScalar data) => (log, results ++ [ItemScalar data])
  | inl e => (log ++ [ErrorReading (raw_path json_file) e], results)
  end.

(** [str(e)] of the [AttributeError] raised by [result.get] on a value
    that is no object, and of the [TypeError] raised by
    [list.extend(None)]. *)
Definition no_attribute_get (type_name : string) : string :=
  "'" +:+ type_name +:+ "' object has no attribute 'get'".

Definition none_not_iterable : string := "'NoneType' object is not iterable".

(** Body of [for result in results]: the new state, or the text of the
    exception raised. *)
Definition raw_group_result
    (st : gmap (option string) RawSiteEntry * list Product.t) (result : item)
  : string + gmap (option string) RawSiteEntry * list Product.t :=
  let '(sites, all_products) := st in
  match result with
  | ItemScalar k => inl (no_attribute_get (type_name k))
  | ItemArray => inl (no_attribute_get "list")
  | ItemObject result =>
      let site := raw_get (RawData.site result) "unknown" in
      let location := raw_get (RawData.location result) "Unknown" in
      let products := raw_get (RawData.products result) [] in
      let sites :=
        match sites !! site with
        | None => <[site := {| rse_location := location; rse_products := [];
                               rse_total := 0 |}]> sites
        | Some _ => sites
        end in
      match products with
      | None => inl none_not_iterable
      | Some products =>
          inr (alter (fun e => {| rse_location := rse_location e;
                                  rse_products := rse_products e ++ products;
                                  rse_total := rse_total e + length products |})
                     site sites,
               all_products ++ products)
      end
  end.

(** The loop: it stops at the first exception. *)
Fixpoint raw_group_results (results : list item)
    (st : gmap (option string) RawSiteEntry * list Product.t)
  : string + gmap (option string) RawSiteEntry * list Product.t :=
  match results with
  | [] => inr st
  | result :: results' =>
      match raw_group_result st result with
      | inl e => inl e
      | inr st' => raw_group_results results' st'
      end
  end.

(** [get_all_products], the outer [except Exception] included. *)
Definition get_all_products_raw (OUTPUTS_DIR : list RawFile)
  : list log_line * http RawAllProductsResponse :=
  let json_files := glob_raw OUTPUTS_DIR "*-parsed.json" in
  match json_files with
  | [] => ([], Ok (RawNoParsedData "No parsed data found" [] 0))
  | _ =>
      let '(log, results) := fold_left raw_load_json_file json_files ([], []) in
      match raw_group_results results (∅, []) with
      | inl e => (log, HTTPException 500 (Text ("Error retrieving products: " +:+ e)))
      | inr (sites, all_products) =>
          (log, Ok (RawAllProducts "Success" sites all_products
                      (length all_products) (size sites)))
      end
  end.

(** A typed artifact as unvalidated JSON. *)
Definition to_field {A} (o : option A) : field A :=
  match o with Some a => Value a | None => Absent end.

Definition raw_of_record (r : ProductData.t) : RawData.t :=
  {| RawData.site := to_field (ProductData.site r);
     RawData.location := to_field (ProductData.location r);
     RawData.products := to_field (ProductData.products r);
     RawData.totalProducts := to_field (ProductData.totalProducts r);
     RawData.filename := to_field (ProductData.filename r) |}.

Definition raw_of_artifact (a : artifact) : json_value :=
  match a with
  | JList data => JsonArray (ItemObject ∘ raw_of_record <$> data)
  | JDict data => JsonObject (raw_of_record data)
  end.

Definition raw_of_file (f : File) : RawFile :=
  {| raw_path := path f;
     raw_load := match load f with
                 | inr a => inr (raw_of_artifact a)
                 | inl e => inl e
                 end |}.

Definition raw_of_entry (e : SiteEntry) : RawSiteEntry :=
  {| rse_location := Some (se_location e); rse_products := se_products e;
     rse_total := se_total e |}.

Definition raw_of_response (r : http AllProductsResponse) : http RawAllProductsResponse :=
  match r with
  | Ok (NoParsedData message products total) =>
      Ok (RawNoParsedData message products total)
  | Ok (AllProducts message sites all_products total_products total_sites) =>
      Ok (RawAllProducts message (kmap Some (raw_of_entry <$> sites)) all_products
            total_products total_sites)
  | HTTPException status_code detail => HTTPException status_code detail
  end.

(** The elements of a loaded value, the products of an element, and the
    values the aggregation loop gets through: objects whose [products], if
    the key is there, is a list. *)
Definition items_of (v : json_value) : list item :=
  match v with
  | JsonArray items => items
  | JsonObject r => [ItemObject r]
  | JsonScalar k => [ItemScalar k]
  end.





Definition raw_file_items (f : RawFile) : list item :=
  match raw_load f with inr v => items_of v | inl _ => [] end.


Definition raw_file_errors (f : RawFile) : list log_line :=
  match raw_load f with inl e => [ErrorReading (raw_path f) e] | inr _ => [] end.



(** ** Sample data *)

Definition mk_product (n : string) (p : float) : Product.t :=
  {| Product.name := n; Product.mrp := Some p; Product.price := Some p;
     Product.discount := None; Product.discountAmount := None;
     Product.isOutOfStock := false |}.

Definition mk_record (s l : string) (ps : list Product.t) : ProductData.t :=
  {| ProductData.site := Some s; ProductData.location := Some l;
     ProductData.products := Some ps;
     ProductData.totalProducts := Some (Z.of_nat (length ps));
     ProductData.filename := None |}.

Definition rice := mk_product "Rice 1kg" 89.5%float.
Definition milk := mk_product "Milk 1l" 64%float.
Definition salt := mk_product "Salt" 22%float.

(** [dmart-mumbai-parsed.json]: two products, site [dmart]. *)
Definition dmart_mumbai : File :=
  {| path := "dmart-mumbai-parsed.json"; getmtime := 1700000000;
     load := inr (JDict (mk_record "dmart" "Mumbai - Andheri West" [rice; milk])) |}.

(** [zepto-pune-parsed.json]: three products, site [zepto]. *)
Definition zepto_pune : File :=
  {| path := "zepto-pune-parsed.json"; getmtime := 1700000100;
     load := inr (JDict (mk_record "zepto" "Pune" [rice; milk; salt])) |}.

(** A file that is not JSON. *)
Definition corrupt : File :=
  {| path := "broken-parsed.json"; getmtime := 1700000200; load := inl ReadError |}.

(** Two artifacts whose [site] differs in letter case only. *)
Definition run1_dmart : File :=
  {| path := "run1-dmart-pune-parsed.json"; getmtime := 1700000300;
     load := inr (JDict (mk_record "Dmart" "Pune" [salt])) |}.

Definition run2_dmart : File :=
  {| path := "run2-dmart-mumbai-parsed.json"; getmtime := 1700000400;
     load := inr (JDict (mk_record "dmart" "Mumbai" [rice; milk])) |}.

(** The artifact of an uploaded [page.html]: the site is in the record,
    not in the file name. *)
Definition page_dmart : ProductData.t :=
  mk_record "dmart" "Mumbai - Andheri West" [rice; milk].

Definition page : File :=
  {| path := "page-parsed.json"; getmtime := 1700000600;
     load := inr (JDict page_dmart) |}.

(** A batch artifact and the surroundings of three scrape requests. *)
Definition batch_20240101 : File :=
  {| path := "parsed-results-20240101.json"; getmtime := 1704067200;
     load := inr (JList [mk_record "dmart" "Mumbai" [rice; milk];
                         mk_record "zepto" "Mumbai" [salt]]) |}.

Definition batch_20231231 : File :=
  {| path := "parsed-results-20231231.json"; getmtime := 1703980800;
     load := inr (JList [mk_record "swiggy" "Mumbai" [milk]]) |}.

Definition rice_request : ScrapeRequest.t :=
  {| ScrapeRequest.location := "Mumbai"; ScrapeRequest.product := "rice" |}.

(** The orchestrator exits with status 1 after writing one page. *)
Definition partial_scrape : World :=
  {| orchestrator := inr {| returncode := 1; stderr := "jiomart: timeout" |};
     output_dir := Some ["dmart-mumbai.html"];
     parser := inr {| returncode := 0; stderr := "" |};
     outputs_dir := [dmart_mumbai; batch_20231231; batch_20240101] |}.


(** Records whose [totalProducts] disagrees with their product list. *)
Definition mismatched : File :=
  {| path := "mixed-parsed.json"; getmtime := 1700000500;
     load := inr (JList [
       {| ProductData.site := Some "dmart"; ProductData.location := Some "Pune";
          ProductData.products := Some [rice; milk];
          ProductData.totalProducts := Some 0%Z; ProductData.filename := None |};
       {| ProductData.site := Some "jiomart"; ProductData.location := Some "Pune";
          ProductData.products := Some [salt];
          ProductData.totalProducts := None; ProductData.filename := None |};
       {| ProductData.site := Some "zepto"; ProductData.location := Some "Pune";
          ProductData.products := Some [];
          ProductData.totalProducts := Some 3%Z; ProductData.filename := None |};
       {| ProductData.site := Some "zepto"; ProductData.location := Some "Pune";
          ProductData.products := Some [salt];
          ProductData.totalProducts := Some 1%Z; ProductData.filename := None |}]) |}.

Definition fallback_scrape : World :=
  {| orchestrator := inr {| returncode := 0; stderr := "" |};
     output_dir := Some ["zepto-pune.html"; "notes.txt"];
     parser := inr {| returncode := 0; stderr := "" |};
     outputs_dir := [corrupt; mismatched] |}.

(** The orchestrator fails and its [stderr] is not UTF-8. *)
Definition garbled_scrape : World :=
  {| orchestrator := inr {| returncode := 1; stderr := String (ascii_of_N 255) "" |};
     output_dir := Some ["dmart-mumbai.html"];
     parser := inr {| returncode := 0; stderr := "" |};
     outputs_dir := [dmart_mumbai] |}.

(** The same site at two locations, in two files. *)
Definition dmart_pune : File :=
  {| path := "dmart-pune-parsed.json"; getmtime := 1700000700;
     load := inr (JDict (mk_record "dmart" "Pune" [salt])) |}.


(** A record of [dmart] that has no [location] key. *)
Definition dmart_nowhere : ProductData.t :=
  {| ProductData.site := Some "dmart"; ProductData.location := None;
     ProductData.products := Some [salt];
     ProductData.totalProducts := Some 1%Z; ProductData.filename := None |}.

Definition dmart_nowhere_file : File :=
  {| path := "x-dmart-parsed.json"; getmtime := 1700000800;
     load := inr (JDict dmart_nowhere) |}.






(** A page to parse, its path, and two runs of the parser over it: one
    that writes the artifact, one that fails after an earlier run has
    left an artifact behind. *)
Definition page_html : Path.t :=
  {| Path.str := "output/page.html"; Path.is_there := true;
     Path.suffix := ".html"; Path.stem := "page" |}.

Definition page_upload : UploadFile.t :=
  {| UploadFile.filename := "page.html"; UploadFile.content := "<html></html>" |}.

Definition uploaded_page : Path.t :=
  {| Path.str := "outputs/page.html"; Path.is_there := true;
     Path.suffix := ".html"; Path.stem := "page" |}.

Definition good_run : ParserRun :=
  {| parse_process := inr {| returncode := 0; stderr := "" |};
     outputs_after := [dmart_mumbai; page] |}.

Definition failed_run : ParserRun :=
  {| parse_process := inr {| returncode := 1; stderr := "no products found" |};
     outputs_after := [dmart_mumbai; page] |}.










(** ** The handlers on the sample data *)

Example all_products_of_two_artifacts :
  ∃ sites, get_all_products [dmart_mumbai; zepto_pune]
           = ([], Ok (AllProducts "Success" sites
                        [rice; milk; rice; milk; salt] 5 2)).
Proof. eexists. by vm_compute. Qed.

Example all_products_skip_corrupt_file :
  ∃ sites, get_all_products [dmart_mumbai; corrupt; zepto_pune]
           = ([ErrorReading "broken-parsed.json" ReadError],
              Ok (AllProducts "Success" sites
                    [rice; milk; rice; milk; salt] 5 2)).
Proof. eexists. by vm_compute. Qed.

Example dmart_has_nothing_in_pune :
  get_products_by_site_and_location [dmart_mumbai; zepto_pune] "dmart" "pune"
  = ([], Ok (SiteLocationNoData "No data found for site: dmart, location: pune"
               "dmart" "pune" [] 0)).
Proof. by vm_compute. Qed.

Example unsupported_site_text :
  unsupported_site "amazon"
  = Text "Unsupported site: amazon. Supported sites: dmart, jiomart, naturesbasket, zepto, swiggy".
Proof. done. Qed.

Example newest_batch_first :
  path <$> sorted_by_mtime_reverse (batch_files partial_scrape)
  = ["parsed-results-20240101.json"; "parsed-results-20231231.json"].
Proof. done. Qed.

Example garbled_stderr_is_an_error :
  scrape_products rice_request garbled_scrape = ([], scrape_error UnicodeDecodeError).
Proof. done. Qed.

(** ** Facts about the loops of GET /api/products *)

Lemma load_json_files_from files log results :
  fold_left load_json_file files (log, results)
  = (log ++ read_errors files, results ++ loaded_records files).
Proof.
  revert log results.
  induction files as [|f files IH]; intros log results; simpl.
  - by rw /read_errors /loaded_records /= !app_nil_r.
  - rw /read_errors /loaded_records /= /file_errors /file_records.
    destruct (load f) as [e|[data|data]]; simpl; rw IH;
      rw /read_errors /loaded_records /= ?app_nil_r -?app_assoc //.
Qed.

Lemma load_json_files_eq files :
  load_json_files files = (read_errors files, loaded_records files).
Proof. apply (load_json_files_from files [] []). Qed.

Lemma length_all_products_of rs :
  length (all_products_of rs) = sum_len_products rs.
Proof.
  induction rs as [|r rs IH]; first done.
  rw /all_products_of /sum_len_products /= length_app.
  by rw -/(all_products_of rs) IH.
Qed.

Lemma with_site_cons s r rs :
  with_site s (r :: rs)
  = if decide (site_key r = s) then r :: with_site s rs else with_site s rs.
Proof. rw /with_site filter_cons. by case_decide. Qed.

(** One pass of [group_result] over [rs], from any dictionary: an entry
    already present keeps its location and grows; a missing one is
    created by the first record with that key. *)
Lemma group_results_from rs sites all_products s :
  let '(sites', all') := fold_left group_result rs (sites, all_products) in
  all' = all_products ++ all_products_of rs ∧
  sites' !! s =
    match sites !! s with
    | Some e =>
        Some {| se_location := se_location e;
                se_products := se_products e ++ all_products_of (with_site s rs);
                se_total := se_total e + sum_len_products (with_site s rs) |}
    | None =>
        (λ first, {| se_location := location_of first;
                     se_products := all_products_of (with_site s rs);
                     se_total := sum_len_products (with_site s rs) |})
          <$> head (with_site s rs)
    end.
Proof.
  revert sites all_products.
  induction rs as [|r rs IH]; intros sites all_products.
  - simpl. split; first by rw app_nil_r.
    destruct (sites !! s) as [[l ps t]|] eqn:E; rw ?E //=.
    by rw app_nil_r Nat.add_0_r.
  - cbn [fold_left]. unfold group_result at 2.
    fold (site_key r) (location_of r) (products_of r).
    match goal with |- context [fold_left _ rs (?m, ?a)] =>
      specialize (IH m a); destruct (fold_left group_result rs (m, a)) as [sites' all'] eqn:F
    end.
    destruct IH as [-> IH]. split.
    { by rw /all_products_of /= -app_assoc. }
    rw IH with_site_cons. clear IH F.
    destruct (decide (site_key r = s)) as [<-|Hne].
    + rw lookup_alter_eq.
      destruct (sites !! site_key r) as [[l ps t]|] eqn:E.
      * rw E /=. f_equal.
        rw /all_products_of /sum_len_products /= -app_assoc Nat.add_assoc //.
      * rw lookup_insert_eq /=. f_equal.
    + rw lookup_alter_ne //.
      destruct (sites !! site_key r) as [e|] eqn:E; first done.
      by rw lookup_insert_ne.
Qed.

Lemma group_results_eq rs s :
  snd (group_results rs) = all_products_of rs ∧
  fst (group_results rs) !! s =
    (λ first, {| se_location := location_of first;
                 se_products := all_products_of (with_site s rs);
                 se_total := sum_len_products (with_site s rs) |})
      <$> head (with_site s rs).
Proof.
  pose proof (group_results_from rs ∅ [] s) as H.
  rw /group_results.
  destruct (fold_left group_result rs (∅, [])) as [sites' all'].
  by rw lookup_empty in H.
Qed.


(** ** GET /api/products: properties *)

Lemma loaded_records_readable files :
  loaded_records (List.filter readable files) = loaded_records files.
Proof.
  induction files as [|f files IH]; first done.
  rw /loaded_records /= /readable /file_records.
  destruct (load f) as [e|a] eqn:E; rw /= -/(loaded_records _) IH //.
  by rw /file_records E.
Qed.

Lemma get_all_products_eq dir :
  let json_files := glob dir "*-parsed.json" in
  let results := loaded_records json_files in
  get_all_products dir =
    match json_files with
    | [] => ([], Ok (NoParsedData "No parsed data found" [] 0))
    | _ => (read_errors json_files,
            Ok (AllProducts "Success" (fst (group_results results))
                  (all_products_of results) (sum_len_products results)
                  (size (fst (group_results results)))))
    end.
Proof.
  rw /get_all_products /=.
  destruct (glob dir "*-parsed.json") as [|f fs] eqn:G; first done.
  rw load_json_files_eq.
  destruct (group_results_eq (loaded_records (f :: fs)) "") as [Hall _].
  destruct (group_results (loaded_records (f :: fs))) as [sites all] eqn:R.
  simpl in *. subst all. by rw length_all_products_of.
Qed.

(** On artifacts of the declared type nothing can raise: whatever the
    directory holds, GET /api/products answers with a body, prints one
    line per file that could not be loaded, and its product list is the
    concatenation of the products of exactly the files that did load. *)
Lemma get_all_products_tolerates_corrupt_files (dir : list File) :
  let json_files := glob dir "*-parsed.json" in
  ∃ body,
    get_all_products dir = (read_errors json_files, Ok body) ∧
    response_products body
    = concat (map file_products (List.filter readable json_files)).
Proof.
  intros json_files. rw get_all_products_eq.
  assert (all_products_of (loaded_records json_files)
          = concat (map file_products (List.filter readable json_files))) as H.
  { rw -loaded_records_readable.
    generalize (List.filter readable json_files) as fs.
    induction fs as [|f fs IH]; first done.
    rw /loaded_records /all_products_of /= map_app concat_app.
    by rw -/(loaded_records fs) -/(all_products_of (loaded_records fs)) IH. }
  fold json_files. destruct json_files as [|f fs] eqn:E.
  - by eexists.
  - eexists. split; first done. by rw -H.
Qed.

Lemma head_with_site_is_Some s rs :
  is_Some (head (with_site s rs)) ↔ ∃ r, r ∈ rs ∧ site_key r = s.
Proof.
  rw /with_site. split.
  - intros [r Hr]. exists r.
    apply head_Some_elem_of in Hr. by apply list_elem_of_filter in Hr as [? ?].
  - intros (r & Hin & Hkey).
    assert (r ∈ filter (λ r, site_key r = s) rs) as H
      by by apply list_elem_of_filter.
    destruct (filter _ rs); [by apply elem_of_nil in H | by eexists].
Qed.

(** C2. In the answer of GET /api/products the [total] of a site is the
    sum of [len(products)] over all loaded records filed under that site,
    whichever files they came from; every site of a loaded record has an
    entry; and [total_products] is the sum over all loaded records. *)
Theorem get_all_products_totals (dir : list File) :
  let results := loaded_records (glob dir "*-parsed.json") in
  match snd (get_all_products dir) with
  | Ok (AllProducts _ sites _ total_products _) =>
      total_products = sum_len_products results ∧
      (∀ s, is_Some (sites !! s) ↔ ∃ r, r ∈ results ∧ site_key r = s) ∧
      (∀ s e, sites !! s = Some e →
              se_total e = sum_len_products (with_site s results))
  | Ok (NoParsedData _ _ total) => results = [] ∧ total = 0
  | HTTPException _ _ => False
  end.
Proof.
  intros results. rw get_all_products_eq. fold results.
  destruct (glob dir "*-parsed.json") as [|f fs] eqn:G; first done.
  cbn [snd]. split; first done. split.
  - intros s. destruct (group_results_eq results s) as [_ ->].
    rw -head_with_site_is_Some. by rw fmap_is_Some.
  - intros s e. destruct (group_results_eq results s) as [_ ->].
    destruct (head (with_site s results)); simpl; last done.
    by intros [= <-].
Qed.

Lemma group_results_app rs1 rs2 s e1 :
  fst (group_results rs1) !! s = Some e1 →
  fst (group_results (rs1 ++ rs2)) !! s =
    Some {| se_location := se_location e1;
            se_products := se_products e1 ++ all_products_of (with_site s rs2);
            se_total := se_total e1 + sum_len_products (with_site s rs2) |}.
Proof.
  intros H. rw /group_results fold_left_app.
  rw /group_results in H.
  destruct (fold_left group_result rs1 (∅, [])) as [sites1 all1].
  pose proof (group_results_from rs2 sites1 all1 s) as H2.
  destruct (fold_left group_result rs2 (sites1, all1)) as [sites2 all2].
  destruct H2 as [_ H2]. simpl in *. by rw H2 H.
Qed.

(** C9. In the [sites] mapping of GET /api/products a site has an entry
    exactly when some loaded record has this site; the location of the
    entry is that of the first such record, and its product list holds
    the products of that record followed by those of every later record
    of the site.  Within the pass, an entry once made keeps its location
    while the products of later records of the site are appended to it,
    and a site first met later gets its entry then. *)
Theorem get_all_products_first_seen_location (dir : list File) :
  let results := loaded_records (glob dir "*-parsed.json") in
  match snd (get_all_products dir) with
  | Ok (AllProducts _ sites _ _ _) =>
      ∀ s, sites !! s =
           match with_site s results with
           | [] => None
           | first :: later =>
               Some {| se_location := location_of first;
                       se_products := products_of first ++ all_products_of later;
                       se_total := length (products_of first ++ all_products_of later) |}
           end
  | Ok (NoParsedData _ _ _) => results = []
  | HTTPException _ _ => False
  end
  ∧
  ∀ (seen later : list ProductData.t) s,
    fst (group_results (seen ++ later)) !! s =
      match fst (group_results seen) !! s with
      | Some e =>
          Some {| se_location := se_location e;
                  se_products := se_products e ++ all_products_of (with_site s later);
                  se_total := se_total e + sum_len_products (with_site s later) |}
      | None =>
          match with_site s later with
          | [] => None
          | first :: rest =>
              Some {| se_location := location_of first;
                      se_products := products_of first ++ all_products_of rest;
                      se_total := length (products_of first ++ all_products_of rest) |}
          end
      end.
Proof.
  intros results. split.
  - rw get_all_products_eq. fold results.
    destruct (glob dir "*-parsed.json") as [|f fs] eqn:G; first done.
    cbn [snd]. intros s.
    destruct (group_results_eq results s) as [_ ->].
    destruct (with_site s results) as [|first later]; simpl; first done.
    by rw -(length_all_products_of (first :: later)).
  - intros seen later s. rw /group_results fold_left_app.
    destruct (fold_left group_result seen (∅, [])) as [sites1 all1].
    pose proof (group_results_from later sites1 all1 s) as H.
    destruct (fold_left group_result later (sites1, all1)) as [sites2 all2].
    destruct H as [_ H]. simpl in *. rw H.
    destruct (sites1 !! s); first done.
    destruct (with_site s later) as [|first rest]; simpl; first done.
    by rw -(length_all_products_of (first :: rest)).
Qed.

(** C10. GET /api/products files records under the site string as stored:
    two artifacts with sites [Dmart] and [dmart] give two entries and
    [total_sites = 2], whereas GET /api/products/dmart serves the
    products of both under the one site. *)
Theorem get_all_products_keeps_letter_case :
  let dir := [run1_dmart; run2_dmart] in
  (∃ sites,
     get_all_products dir
     = ([], Ok (AllProducts "Success" sites [salt; rice; milk] 3 2)) ∧
     (se_products <$> sites !! "Dmart") = Some [salt] ∧
     (se_products <$> sites !! "dmart") = Some [rice; milk] ∧
     size sites = 2) ∧
  (∃ locations,
     get_products_by_site dir "dmart"
     = ([], Ok (SiteProducts "Success" "dmart" locations [salt; rice; milk] 3 2))).
Proof.
  split.
  - eexists. split; first by vm_compute. by vm_compute.
  - eexists. by vm_compute.
Qed.

(** ** Strings and patterns *)

Lemma in_list_spec x xs : Str.in_list x xs = true ↔ x ∈ xs.
Proof.
  rw /Str.in_list existsb_exists. split.
  - intros (y & Hin & Heq). apply String.eqb_eq in Heq as ->.
    by apply list_elem_of_In.
  - intros Hin. exists x. split; first by apply list_elem_of_In.
    apply String.eqb_refl.
Qed.

Lemma lower_ascii_idemp c : Str.lower_ascii (Str.lower_ascii c) = Str.lower_ascii c.
Proof. by destruct c as [[] [] [] [] [] [] [] []]. Qed.

Lemma lower_idemp s : Str.lower (Str.lower s) = Str.lower s.
Proof. induction s as [|c s IH]; first done. by rw /= lower_ascii_idemp IH. Qed.

Lemma same_letters_lower s t : Str.same_letters s t → Str.lower s = Str.lower t.
Proof.
  revert t. induction s as [|a s IH]; intros [|b t]; simpl; try done.
  intros [Hc Hs]. rw (IH t Hs). f_equal.
  destruct Hc as [->|[<-| ->]]; by rw ?lower_ascii_idemp.
Qed.

Lemma startswith_spec p s :
  Str.startswith p s = true ↔ ∃ rest, s = p +:+ rest.
Proof.
  revert s. induction p as [|a p IH]; intros s; simpl.
  - split; [by exists s | done].
  - destruct s as [|b s].
    + split; [done | by intros [rest ?]].
    + destruct (Ascii.eqb_spec a b) as [->|Hne].
      * rw IH. split; intros [rest H]; exists rest; [by rw H | by injection H].
      * split; [done | intros [rest [= ? ?]]; by subst].
Qed.

Lemma contains_spec needle hay :
  Str.contains needle hay = true ↔ ∃ pre post, hay = pre +:+ needle +:+ post.
Proof.
  induction hay as [|c hay IH]; simpl.
  - rw orb_false_r startswith_spec. split.
    + intros [rest H]. by exists "", rest.
    + intros ([|? ?] & post & H); [by exists post | done].
  - rw orb_true_iff startswith_spec IH. split.
    + intros [[rest H]|(pre & post & H)].
      * by exists "", rest.
      * exists (String c pre), post. by rw H.
    + intros ([|c' pre] & post & H).
      * left. by exists post.
      * right. injection H as _ H. by exists pre, post.
Qed.

(** A name matched by a pattern is matched by the pattern with a star in
    front: the first glob of a site is covered by the second. *)
Lemma fnmatch_star_front pat name :
  Str.fnmatch pat name = true → Str.fnmatch ("*" +:+ pat) name = true.
Proof. intros H. simpl. destruct name; by rw H. Qed.

Lemma elem_of_glob f dir pattern :
  f ∈ glob dir pattern ↔ f ∈ dir ∧ Str.fnmatch pattern (path f) = true.
Proof. by rw /glob !list_elem_of_In filter_In. Qed.

Lemma elem_of_site_json_files f dir site :
  f ∈ site_json_files dir site
  ↔ f ∈ dir ∧ Str.fnmatch ("*" +:+ site +:+ "*-parsed.json") (path f) = true.
Proof.
  rw /site_json_files elem_of_app !elem_of_glob. split; last by right.
  intros [[? H]|?]; last done. split; first done.
  by apply (fnmatch_star_front (site +:+ "*-parsed.json")).
Qed.

(** ** GET /api/products/{site}: properties *)

(** C1. With the single artifact [dmart-mumbai-parsed.json] (two products,
    site [dmart]) both patterns of [get_products_by_site] match the file,
    it is loaded twice, and the answer of GET /api/products/dmart counts
    its products twice: [total_products = 4], [total_locations = 1]. *)
Theorem get_products_by_site_counts_file_twice :
  all_products_of (file_records dmart_mumbai) = [rice; milk] ∧
  site_json_files [dmart_mumbai] "dmart" = [dmart_mumbai; dmart_mumbai] ∧
  ∃ locations,
    get_products_by_site [dmart_mumbai] "dmart"
    = ([], Ok (SiteProducts "Success" "dmart" locations
                 [rice; milk; rice; milk] 4 1)) ∧
    locations !! "Mumbai - Andheri West" = Some [rice; milk; rice; milk].
Proof.
  split; first done. split; first done.
  eexists. split; by vm_compute.
Qed.

(** C5. A site that is not one of the five supported ones once
    lower-cased makes both site-scoped handlers raise the 400 validation
    error, whatever the directory holds; a supported site written in any
    letter case gets a response body from both. *)
Theorem unknown_site_is_rejected (dir : list File) (site location : string) :
  (Str.lower site ∉ SUPPORTED_SITES →
     get_products_by_site dir site
     = ([], HTTPException 400 (unsupported_site (Str.lower site))) ∧
     get_products_by_site_and_location dir site location
     = ([], HTTPException 400 (unsupported_site (Str.lower site))))
  ∧
  (∀ known, known ∈ SUPPORTED_SITES → Str.same_letters site known →
     (∃ body, snd (get_products_by_site dir site) = Ok body) ∧
     (∃ body, snd (get_products_by_site_and_location dir site location) = Ok body)).
Proof.
  split.
  - intros Hno.
    assert (Str.in_list (Str.lower site) SUPPORTED_SITES = false) as E.
    { apply not_true_is_false. by rw in_list_spec. }
    by rw /get_products_by_site /get_products_by_site_and_location E.
  - intros known Hin Hsame.
    assert (Str.in_list (Str.lower site) SUPPORTED_SITES = true) as E.
    { rw (same_letters_lower _ _ Hsame).
      rw /SUPPORTED_SITES !elem_of_cons in Hin.
      destruct Hin as [->|[->|[->|[->|[->|Hin]]]]]; try by vm_compute.
      by apply elem_of_nil in Hin. }
    rw /get_products_by_site /get_products_by_site_and_location E /=. split.
    + destruct (site_json_files dir (Str.lower site)); first by eexists.
      destruct (fold_left _ _ _) as [log [|r rs]]; first by eexists.
      destruct (fold_left _ _ _). by eexists.
    + destruct (site_json_files dir (Str.lower site)); first by eexists.
      destruct (matching_results _ _ _) as [log [|r rs]]; by eexists.
Qed.

Lemma unknown_site_is_rejected_witness :
  ((Str.lower "Amazon" ∉ SUPPORTED_SITES) ∧
   get_products_by_site [dmart_mumbai] "Amazon"
   = ([], HTTPException 400 (unsupported_site "amazon"))) ∧
  (Str.same_letters "DMart" "dmart" ∧
   ∃ body, snd (get_products_by_site [dmart_mumbai] "DMart") = Ok body).
Proof.
  assert (Str.lower "Amazon" ∉ SUPPORTED_SITES) as Hno.
  { intros H%in_list_spec. by vm_compute in H. }
  assert ("dmart" ∈ SUPPORTED_SITES) as Hin by left.
  assert (Str.same_letters "DMart" "dmart") as Hsame by (vm_compute; tauto).
  destruct (unknown_site_is_rejected [dmart_mumbai] "Amazon" "pune") as [H400 _].
  destruct (unknown_site_is_rejected [dmart_mumbai] "DMart" "pune") as [_ Hok].
  split.
  - split; first exact Hno. exact (proj1 (H400 Hno)).
  - split; first exact Hsame. exact (proj1 (Hok "dmart" Hin Hsame)).
Defined.

(** ** GET /api/products/{site}/{location}: properties *)

Section matching.
Variables site location : string.

Lemma keep_matching_from rs acc :
  fold_left (λ acc result,
               if result_matches site location result then acc ++ [result] else acc)
            rs acc
  = acc ++ List.filter (result_matches site location) rs.
Proof.
  revert acc. induction rs as [|r rs IH]; intros acc; simpl.
  - by rw app_nil_r.
  - rw IH. destruct (result_matches site location r); first by rw -app_assoc.
    done.
Qed.

Lemma load_matching_files_from files log acc :
  fold_left (load_matching_file site location) files (log, acc)
  = (log ++ read_errors files,
     acc ++ List.filter (result_matches site location) (loaded_records files)).
Proof.
  revert log acc. induction files as [|f files IH]; intros log acc; simpl.
  - by rw /read_errors /loaded_records /= !app_nil_r.
  - rw /read_errors /loaded_records /= /file_errors /file_records.
    destruct (load f) as [e|a]; rw IH /=.
    + by rw -app_assoc.
    + rw keep_matching_from List.filter_app -app_assoc.
      by destruct a.
Qed.

Lemma matching_results_eq dir :
  matching_results dir site location
  = (read_errors (site_json_files dir site),
     List.filter (result_matches site location)
                 (loaded_records (site_json_files dir site))).
Proof. apply (load_matching_files_from _ [] []). Qed.

End matching.

Lemma elem_of_loaded_records r files :
  r ∈ loaded_records files ↔ ∃ f, f ∈ files ∧ r ∈ file_records f.
Proof.
  induction files as [|f files IH].
  - split; [by intros ?%elem_of_nil | by intros (? & ?%elem_of_nil & _)].
  - rw /loaded_records /= -/(loaded_records files) elem_of_app IH. split.
    + intros [?|(g & ? & ?)]; [exists f | exists g]; by rw elem_of_cons; auto.
    + intros (g & [->|?]%elem_of_cons & ?); [by left | right; by exists g].
Qed.

Lemma products_from acc rs :
  fold_left (λ acc result, acc ++ get (ProductData.products result) []) rs acc
  = acc ++ all_products_of rs.
Proof.
  revert acc. induction rs as [|r rs IH]; intros acc; simpl.
  - by rw app_nil_r.
  - by rw IH /all_products_of /= -app_assoc.
Qed.

(** C3, as the code has it.  For a supported site,
    GET /api/products/{site}/{location} reads the artifacts whose file
    name matches [*{site}*-parsed.json] and keeps a record of these
    exactly when the record's site, lower-cased, equals the lower-cased
    query site and the lower-cased query location occurs inside the
    record's lower-cased location.  The records kept are the only source
    of the products in the answer; the others leave no trace, the log
    holding only the lines for files that could not be loaded.  A record
    located at [Mumbai - Andheri West] matches the query location
    [andheri]. *)
Theorem site_and_location_filter (dir : list File) (site location : string) :
  Str.lower site ∈ SUPPORTED_SITES →
  let json_files := site_json_files dir (Str.lower site) in
  let kept := snd (matching_results dir (Str.lower site) (Str.lower location)) in
  (∀ r, r ∈ kept ↔
          (∃ f, f ∈ dir ∧
                Str.fnmatch ("*" +:+ Str.lower site +:+ "*-parsed.json") (path f) = true ∧
                r ∈ file_records f) ∧
          Str.lower (get (ProductData.site r) "") = Str.lower site ∧
          ∃ before after,
            Str.lower (get (ProductData.location r) "")
            = before +:+ Str.lower location +:+ after) ∧
  (∃ body,
     get_products_by_site_and_location dir site location
     = (read_errors json_files, Ok body) ∧
     site_location_products body = all_products_of kept) ∧
  result_matches "dmart" (Str.lower "andheri")
    (mk_record "dmart" "Mumbai - Andheri West" [rice; milk]) = true.
Proof.
  intros Hsite json_files kept. split; last split; last done.
  - intros r. rw /kept matching_results_eq /=.
    rw list_elem_of_In filter_In -list_elem_of_In elem_of_loaded_records.
    rw /result_matches andb_true_iff String.eqb_eq contains_spec.
    split.
    + intros [(f & Hf & Hr) [? ?]]. split; last done.
      apply elem_of_site_json_files in Hf as [? ?]. by exists f.
    + intros [(f & Hf & Hm & Hr) [? ?]]. split; last done.
      exists f. split; last done. by apply elem_of_site_json_files.
  - assert (Str.in_list (Str.lower site) SUPPORTED_SITES = true) as E
      by by apply in_list_spec.
    rw /get_products_by_site_and_location E /=.
    rw /kept matching_results_eq. fold json_files. cbn [snd].
    destruct json_files as [|f fs] eqn:F; first by eexists.
    destruct (List.filter _ _) as [|r rs] eqn:K; first by eexists.
    eexists. split; first done. by rw /= products_from.
Qed.

Lemma site_and_location_filter_witness :
  Str.lower "DMART" ∈ SUPPORTED_SITES ∧
  ∃ body,
    get_products_by_site_and_location [dmart_mumbai; zepto_pune] "DMART" "Andheri"
    = (read_errors (site_json_files [dmart_mumbai; zepto_pune] (Str.lower "DMART")),
       Ok body) ∧
    site_location_products body
    = all_products_of
        (snd (matching_results [dmart_mumbai; zepto_pune]
                (Str.lower "DMART") (Str.lower "Andheri"))).
Proof.
  assert (Str.lower "DMART" ∈ SUPPORTED_SITES) as H by (vm_compute; left).
  split; first exact H.
  exact (proj1 (proj2 (site_and_location_filter
                         [dmart_mumbai; zepto_pune] "DMART" "Andheri" H))).
Defined.

(** C3, as stated, fails: the record of [page-parsed.json] has site
    [dmart] and a location containing [andheri], GET /api/products serves
    its products, and GET /api/products/dmart/andheri finds no data,
    because the file name does not contain the site. *)
Lemma site_and_location_filter_skips_other_names :
  page_dmart ∈ file_records page ∧
  Str.lower (get (ProductData.site page_dmart) "") = Str.lower "dmart" ∧
  Str.contains (Str.lower "andheri")
    (Str.lower (get (ProductData.location page_dmart) "")) = true ∧
  (∃ sites, get_all_products [page]
            = ([], Ok (AllProducts "Success" sites [rice; milk] 2 1))) ∧
  get_products_by_site_and_location [page] "dmart" "andheri"
  = ([], Ok (SiteLocationNoData "No data found for site: dmart"
               "dmart" "andheri" [] 0)).
Proof.
  split; first by left. split; first done. split; first done.
  split; last done. eexists. by vm_compute.
Qed.

(** ** POST /api/scrape: properties *)

Lemma scraped_sites_of_app l1 l2 :
  scraped_sites_of (l1 ++ l2) = scraped_sites_of l1 ++ scraped_sites_of l2.
Proof. by rw /scraped_sites_of List.filter_app map_app. Qed.

Lemma load_individual_files_from files log all_data sites :
  fold_left load_individual_file files (log, all_data, sites)
  = (log ++ read_errors files,
     all_data ++ loaded_records files,
     sites ++ scraped_sites_of (loaded_records files)).
Proof.
  revert log all_data sites.
  induction files as [|f files IH]; intros log all_data sites; simpl.
  - by rw /read_errors /loaded_records /= !app_nil_r.
  - rw /read_errors /loaded_records /= /file_errors /file_records.
    destruct (load f) as [e|[data|data]]; rw /= IH.
    + by rw -app_assoc.
    + by rw scraped_sites_of_app -!app_assoc.
    + rw (scraped_sites_of_app [data]) /scraped_sites_of /=.
      destruct (has_products data); by rw /= -!app_assoc.
Qed.



Lemma scrape_after_orchestrator_exits_zero request w :
  scrape_after_orchestrator request (exits_zero w)
  = scrape_after_orchestrator request w.
Proof. done. Qed.

Lemma scrape_products_exits_zero request w process :
  orchestrator w = inr process →
  scrape_products request (exits_zero w) = scrape_after_orchestrator request w.
Proof.
  intros H. rw /scrape_products {1}/exits_zero H /=.
  apply scrape_after_orchestrator_exits_zero.
Qed.

(** The response after the orchestrator is an error exactly when one of
    the later steps raised. *)
Lemma scrape_after_orchestrator_raised request w :
  match raised_after_orchestrator w with
  | Some e => scrape_after_orchestrator request w = ([], scrape_error e)
  | None => ∃ body, snd (scrape_after_orchestrator request w) = Ok body
  end.
Proof.
  rw /raised_after_orchestrator /scrape_after_orchestrator /batch_files.
  destruct (html_files w) as [|h hs]; first by eexists.
  destruct (parser w) as [e|p]; first done.
  destruct (sorted_by_mtime_reverse _) as [|newest rest].
  - destruct (fold_left _ _ _) as [[log all_data] sites]. by eexists.
  - destruct (load newest) as [e|d]; first done. by eexists.
Qed.


(** C6. When the orchestrator exits with a non-zero status, the handler
    prints the warning and continues exactly as it would after a zero
    exit, with the same response.  A 500 is the trace of an exception
    raised inside the handler (the warning text failing to decode, the
    parser failing to start, the batch artifact failing to load); without
    one the response is a success. *)
Theorem nonzero_exit_is_not_fatal
    (request : ScrapeRequest.t) (w : World) (process : Process) :
  orchestrator w = inr process →
  returncode process ≠ 0%Z →
  (∀ msg, error_msg process = inr msg →
     scrape_products request w
     = (ScrapingWarning msg :: fst (scrape_products request (exits_zero w)),
        snd (scrape_products request (exits_zero w)))) ∧
  (∀ status detail,
     snd (scrape_products request w) = HTTPException status detail →
     ∃ e, raised w process e ∧ status = 500 ∧
          detail = ErrorText "Error scraping products: " e) ∧
  ((∀ e, ¬ raised w process e) →
     ∃ msg log body, scrape_products request w = (ScrapingWarning msg :: log, Ok body)).
Proof.
  intros Horch Hrc.
  assert ((returncode process =? 0)%Z = false) as Hz by by apply Z.eqb_neq.
  pose proof (scrape_after_orchestrator_raised request w) as Hafter.
  rw (scrape_products_exits_zero _ _ _ Horch).
  rw /scrape_products Horch Hz /raised.
  destruct (error_msg process) as [e|msg] eqn:Hmsg.
  - split; first done. split.
    + intros status detail [= <- <-]. exists e. by auto.
    + intros Hno. by destruct (Hno e); left.
  - destruct (scrape_after_orchestrator request w) as [log response] eqn:Hrun.
    split; first by intros ? [= <-]. split.
    + intros status detail Hresp. simpl in Hresp. subst response.
      destruct (raised_after_orchestrator w) as [e|].
      * rw /scrape_error in Hafter. injection Hafter as _ -> ->.
        exists e. by auto.
      * by destruct Hafter as [body ?].
    + intros Hno. destruct (raised_after_orchestrator w) as [e|].
      * by destruct (Hno e); right.
      * destruct Hafter as [body Hbody]. simpl in Hbody. subst response.
        by exists msg, log, body.
Qed.

Lemma nonzero_exit_is_not_fatal_witness :
  returncode {| returncode := 1; stderr := "jiomart: timeout" |} ≠ 0%Z ∧
  ∃ msg log body,
    scrape_products rice_request partial_scrape
    = (ScrapingWarning msg :: log, Ok body).
Proof.
  split; first done.
  apply (nonzero_exit_is_not_fatal rice_request partial_scrape
           {| returncode := 1; stderr := "jiomart: timeout" |}).
  - reflexivity.
  - done.
  - intros e [He|He]; by vm_compute in He.
Defined.

Lemma scrape_products_done request w :
  orchestrator_done w →
  snd (scrape_products request w) = snd (scrape_after_orchestrator request w).
Proof.
  intros (process & Horch & Hdone). rw /scrape_products Horch.
  destruct (Z.eqb_spec (returncode process) 0) as [_|Hrc]; first done.
  destruct Hdone as [?|[msg ->]]; first done.
  by destruct (scrape_after_orchestrator request w).
Qed.




(** C8. Whenever POST /api/scrape answers with a body, [sites_scraped] is
    the set of the sites (absent: [unknown]) of those records of its
    [data] whose stored [totalProducts] is greater than 0; a record whose
    [totalProducts] is 0 or absent adds nothing, whatever its product
    list holds.  In the sample, [dmart] (2 products, [totalProducts] 0)
    and [jiomart] (1 product, no [totalProducts]) are left out and
    [zepto], stored twice with a positive [totalProducts], appears
    once. *)
Theorem sites_scraped_by_total_products (request : ScrapeRequest.t) (w : World) :
  match snd (scrape_products request w) with
  | Ok body =>
      sites_scraped body = list_to_set (scraped_sites_of (records_of (data body))) ∧
      ∀ s, s ∈ sites_scraped body ↔
           ∃ r, r ∈ records_of (data body) ∧
                (0 < get (ProductData.totalProducts r) 0)%Z ∧
                get (ProductData.site r) "unknown" = s
  | HTTPException _ _ => True
  end
  ∧
  ∃ body, snd (scrape_products rice_request fallback_scrape) = Ok body ∧
          data body = JList (file_records mismatched) ∧
          elements (sites_scraped body) = ["zepto"].
Proof.
  split; last by (eexists; vm_compute).
  assert (∀ l s, s ∈ (list_to_set (scraped_sites_of l) : gset string) ↔
                 ∃ r, r ∈ l ∧ (0 < get (ProductData.totalProducts r) 0)%Z ∧
                      get (ProductData.site r) "unknown" = s) as Hmem.
  { intros l s. rw elem_of_list_to_set /scraped_sites_of list_elem_of_fmap.
    split.
    - intros (r & -> & Hr). exists r.
      apply list_elem_of_In, filter_In in Hr as [Hr Hp].
      split; first by apply list_elem_of_In. split; last done.
      by apply Z.ltb_lt.
    - intros (r & Hr & Hp & <-). exists r. split; first done.
      apply list_elem_of_In, filter_In. split; first by apply list_elem_of_In.
      by apply Z.ltb_lt. }
  assert (match snd (scrape_after_orchestrator request w) with
          | Ok body =>
              sites_scraped body
              = list_to_set (scraped_sites_of (records_of (data body)))
          | HTTPException _ _ => True
          end) as Hafter.
  { rw /scrape_after_orchestrator.
    destruct (html_files w) as [|h hs]; first done.
    destruct (parser w) as [e|p]; first done.
    destruct (sorted_by_mtime_reverse _) as [|newest rest].
    - by rw load_individual_files_from.
    - destruct (load newest) as [e|[l|d]]; [done..|].
      rw /= /scraped_sites_of /=. by destruct (has_products d). }
  assert (match snd (scrape_products request w) with
          | Ok body =>
              sites_scraped body
              = list_to_set (scraped_sites_of (records_of (data body)))
          | HTTPException _ _ => True
          end) as Hrun.
  { rw /scrape_products. destruct (orchestrator w) as [e|process]; first done.
    destruct (returncode process =? 0)%Z; first done.
    destruct (error_msg process) as [e|msg]; first done.
    by destruct (scrape_after_orchestrator request w). }
  destruct (snd (scrape_products request w)) as [body|]; last done.
  split; first done. intros s. rw Hrun. apply Hmem.
Qed.

(** ** GET /api/products: further properties *)

Lemma elem_of_all_products_of p rs :
  p ∈ all_products_of rs ↔ ∃ r, r ∈ rs ∧ p ∈ products_of r.
Proof.
  induction rs as [|r rs IH].
  - split; [by intros ?%elem_of_nil | by intros (? & ?%elem_of_nil & _)].
  - rw /all_products_of /= -/(all_products_of rs) elem_of_app IH. split.
    + intros [?|(r' & ? & ?)]; [exists r | exists r']; by rw elem_of_cons; auto.
    + intros (r' & [->|?]%elem_of_cons & ?); [by left | right; by exists r'].
Qed.

Lemma sum_len_products_app rs1 rs2 :
  sum_len_products (rs1 ++ rs2) = sum_len_products rs1 + sum_len_products rs2.
Proof. by rw /sum_len_products map_app sum_list_with_app. Qed.

(** The step of the pass adds [len(products)] to the sum of the totals. *)
Lemma sum_site_totals_group_result sites all_products r :
  sum_site_totals (fst (group_result (sites, all_products) r))
  = sum_site_totals sites + length (products_of r).
Proof.
  rw /group_result /=. fold (site_key r) (location_of r) (products_of r).
  set (grow := λ e, {| se_location := se_location e;
                       se_products := se_products e ++ products_of r;
                       se_total := se_total e + length (products_of r) |}).
  assert (∀ (m : gmap string SiteEntry) k e,
            m !! k = Some e →
            sum_site_totals (alter grow k m)
            = sum_site_totals m + length (products_of r)) as Halter.
  { intros m k e Hk. rw /sum_site_totals.
    rw -{2}(insert_delete_id m k e) //.
    assert (alter grow k m = <[k := grow e]> (delete k m)) as ->.
    { apply map_eq. intros j. destruct (decide (k = j)) as [<-|Hne].
      - by rw lookup_alter_eq lookup_insert_eq Hk.
      - by rw lookup_alter_ne // lookup_insert_ne // lookup_delete_ne. }
    rw !map_to_list_insert ?lookup_delete_eq //=. lia. }
  destruct (sites !! site_key r) as [e|] eqn:E.
  - by apply (Halter _ _ e).
  - rw (Halter _ _ {| se_location := location_of r; se_products := []; se_total := 0 |});
      first by rw lookup_insert_eq.
    by rw /sum_site_totals map_to_list_insert.
Qed.

Lemma sum_site_totals_group_results rs sites all_products :
  sum_site_totals (fst (fold_left group_result rs (sites, all_products)))
  = sum_site_totals sites + sum_len_products rs.
Proof.
  revert sites all_products.
  induction rs as [|r rs IH]; intros sites all_products.
  - by rw /sum_len_products /= Nat.add_0_r.
  - cbn [fold_left].
    destruct (group_result (sites, all_products) r) as [sites' all'] eqn:S.
    rw IH. pose proof (sum_site_totals_group_result sites all_products r) as H.
    rw S /= in H. rw H /sum_len_products /=. lia.
Qed.

(** X1. In the answer of GET /api/products every site's [total] is the
    length of that site's own product list, the totals of the sites add up
    to [total_products], and a product is in [all_products] exactly when
    it is in the list of some site. *)
Theorem get_all_products_totals_are_consistent (dir : list File) :
  match snd (get_all_products dir) with
  | Ok (AllProducts _ sites all_products total_products _) =>
      (∀ s e, sites !! s = Some e → se_total e = length (se_products e)) ∧
      sum_site_totals sites = total_products ∧
      (∀ p, p ∈ all_products ↔ ∃ s e, sites !! s = Some e ∧ p ∈ se_products e)
  | Ok (NoParsedData _ products total) => products = [] ∧ total = 0
  | HTTPException _ _ => False
  end.
Proof.
  rw get_all_products_eq.
  set (results := loaded_records (glob dir "*-parsed.json")).
  destruct (glob dir "*-parsed.json") as [|f fs] eqn:G; first done.
  cbn [snd]. split; last split.
  - intros s e. destruct (group_results_eq results s) as [_ ->].
    destruct (head (with_site s results)); simpl; last done.
    intros [= <-]. by rw /= length_all_products_of.
  - pose proof (sum_site_totals_group_results results ∅ []) as H.
    rw -/(group_results results) in H. rw H.
    by rw /sum_site_totals map_to_list_empty.
  - intros p. rw elem_of_all_products_of. split.
    + intros (r & Hr & Hp).
      destruct (group_results_eq results (site_key r)) as [_ Hs].
      assert (r ∈ with_site (site_key r) results) as Hw
        by by apply list_elem_of_filter.
      destruct (with_site (site_key r) results) as [|first later] eqn:W;
        first by apply elem_of_nil in Hw.
      eexists _, _. split; first exact Hs.
      cbn [se_products]. apply elem_of_all_products_of. by exists r.
    + intros (s & e & Hs & Hp).
      destruct (group_results_eq results s) as [_ Hs']. rw Hs' in Hs.
      destruct (head (with_site s results)); simpl in Hs; last done.
      injection Hs as <-. simpl in Hp.
      apply elem_of_all_products_of in Hp as (r & Hr & Hp).
      apply list_elem_of_filter in Hr as [_ Hr]. by exists r.
Qed.

Lemma dom_group_results results :
  dom (group_results results).1 = list_to_set (site_key <$> results).
Proof.
  apply set_eq. intros s.
  rw elem_of_dom elem_of_list_to_set list_elem_of_fmap.
  destruct (group_results_eq results s) as [_ ->].
  rw fmap_is_Some head_with_site_is_Some.
  split; intros (r & ? & ?); by exists r.
Qed.

Lemma total_sites_of_size dir :
  total_sites_of (snd (get_all_products dir))
  = size (list_to_set (site_key <$> loaded_records (glob dir "*-parsed.json"))
          : gset string).
Proof.
  rw get_all_products_eq.
  destruct (glob dir "*-parsed.json") as [|f fs] eqn:G; first done.
  by rw /= -size_dom dom_group_results.
Qed.

(** X2. [total_sites] of GET /api/products is the number of distinct
    site keys among the loaded records, a missing [site] counting as
    [unknown]. *)
Theorem get_all_products_total_sites (dir : list File) :
  total_sites_of (snd (get_all_products dir))
  = length (remove_dups (site_key <$> loaded_records (glob dir "*-parsed.json"))).
Proof.
  rw get_all_products_eq.
  set (results := loaded_records (glob dir "*-parsed.json")).
  destruct (glob dir "*-parsed.json") as [|f fs] eqn:G; first done.
  cbn [snd total_sites_of].
  assert (dom (group_results results).1
          = list_to_set (remove_dups (site_key <$> results))) as Hdom.
  { apply set_eq. intros s.
    rw elem_of_dom elem_of_list_to_set elem_of_remove_dups list_elem_of_fmap.
    destruct (group_results_eq results s) as [_ ->].
    rw fmap_is_Some head_with_site_is_Some.
    split; intros (r & ? & ?); by exists r. }
  rw -size_dom Hdom size_list_to_set //. apply NoDup_remove_dups.
Qed.

Lemma glob_set_meta_file g dir pattern :
  glob (set_meta_file g <$> dir) pattern = set_meta_file g <$> glob dir pattern.
Proof.
  induction dir as [|f dir IH]; first done.
  rw /glob /= -/(glob _ pattern) -/(glob dir pattern).
  destruct (Str.fnmatch pattern (path f)); by rw /= IH.
Qed.

Lemma loaded_records_set_meta_file g files :
  loaded_records (set_meta_file g <$> files) = set_meta g <$> loaded_records files
  ∧ read_errors (set_meta_file g <$> files) = read_errors files.
Proof.
  induction files as [|f files [IH1 IH2]]; first done.
  rw /loaded_records /read_errors /= -/(loaded_records _) -/(read_errors _).
  rw -/(loaded_records files) -/(read_errors files) IH1 IH2 fmap_app.
  rw /file_records /file_errors /=.
  by destruct (load f) as [e|[data|data]].
Qed.

Lemma group_results_set_meta g rs acc :
  fold_left group_result (set_meta g <$> rs) acc = fold_left group_result rs acc.
Proof. revert acc. induction rs as [|r rs IH]; intros [sites all]; by rw /= ?IH. Qed.

(** X3. GET /api/products reads neither [totalProducts] nor [filename]:
    whatever these two keys hold in the stored records, log and answer are
    the same. *)
Theorem get_all_products_ignores_stored_totals
    (g : ProductData.t → option Z * option string) (dir : list File) :
  get_all_products (set_meta_file g <$> dir) = get_all_products dir.
Proof.
  rw /get_all_products glob_set_meta_file.
  destruct (glob dir "*-parsed.json") as [|f fs] eqn:G; first done.
  change (set_meta_file g <$> f :: fs)
    with (set_meta_file g f :: (set_meta_file g <$> fs)).
  cbv iota. change (set_meta_file g f :: (set_meta_file g <$> fs))
    with (set_meta_file g <$> f :: fs).
  rw !load_json_files_eq.
  destruct (loaded_records_set_meta_file g (f :: fs)) as [-> ->].
  by rw /group_results group_results_set_meta.
Qed.

(** X4. "No parsed data found" is the answer of GET /api/products
    exactly when no entry of the directory is named [*-parsed.json].
    When such entries exist and none of them loads, the answer is
    "Success" with an empty [sites], no product and both totals 0, and
    the log names every one of these entries. *)
Theorem get_all_products_nothing_loads (dir : list File) :
  ((∃ message products total,
      snd (get_all_products dir) = Ok (NoParsedData message products total))
   ↔ glob dir "*-parsed.json" = []) ∧
  (glob dir "*-parsed.json" = [] →
     get_all_products dir = ([], Ok (NoParsedData "No parsed data found" [] 0))) ∧
  (glob dir "*-parsed.json" ≠ [] →
   (∀ f, f ∈ glob dir "*-parsed.json" → readable f = false) →
     ∃ log,
       get_all_products dir = (log, Ok (AllProducts "Success" ∅ [] 0 0)) ∧
       length log = length (glob dir "*-parsed.json") ∧
       ∀ f, f ∈ glob dir "*-parsed.json" → ∃ e, ErrorReading (path f) e ∈ log).
Proof.
  rw get_all_products_eq. split; last split.
  - destruct (glob dir "*-parsed.json") as [|f fs].
    + split; [done | intros _; by eexists _, _, _].
    + split; [by intros (? & ? & ? & ?) | done].
  - by intros ->.
  - intros Hne Hbad.
    assert (∀ fs, (∀ f, f ∈ fs → readable f = false) →
                  loaded_records fs = [] ∧ length (read_errors fs) = length fs ∧
                  ∀ f, f ∈ fs → ∃ e, ErrorReading (path f) e ∈ read_errors fs) as H.
    { induction fs as [|f fs IH]; intros Hfs.
      - split; first done. split; first done. by intros ? ?%elem_of_nil.
      - destruct IH as (IH1 & IH2 & IH3).
        { intros f' Hf'. apply Hfs. by right. }
        pose proof (Hfs f ltac:(by left)) as Hf. rw /readable in Hf.
        rw /loaded_records /read_errors /= -/(loaded_records fs) -/(read_errors fs).
        rw /file_records /file_errors. destruct (load f) as [e|a] eqn:L; last done.
        rw /= IH1 IH2. split; first done. split; first done.
        intros f' [->|Hf']%elem_of_cons.
        + exists e. by left.
        + destruct (IH3 f' Hf') as [e' He']. exists e'. by right. }
    destruct (H _ Hbad) as (Hrec & Hlen & Hlog).
    destruct (glob dir "*-parsed.json") as [|f fs] eqn:G; first done.
    exists (read_errors (f :: fs)). by rw Hrec.
Qed.

Lemma get_all_products_nothing_loads_witness :
  ∃ log, get_all_products [corrupt]
         = (log, Ok (AllProducts "Success" ∅ [] 0 0)) ∧
         length log = 1.
Proof.
  destruct (get_all_products_nothing_loads [corrupt]) as (_ & _ & H).
  destruct H as (log & Hrun & Hlen & _).
  - done.
  - intros f [->|?%elem_of_nil]%elem_of_cons; reflexivity || done.
  - by exists log.
Defined.

Lemma glob_cons f dir pattern :
  glob (f :: dir) pattern
  = if Str.fnmatch pattern (path f) then f :: glob dir pattern else glob dir pattern.
Proof. done. Qed.

Lemma glob_Permutation dir dir' pattern :
  dir ≡ₚ dir' → glob dir pattern ≡ₚ glob dir' pattern.
Proof.
  induction 1 as [|f l l' _ IH|f f' l|l1 l2 l3 _ IH1 _ IH2]; rw ?glob_cons.
  - done.
  - destruct (Str.fnmatch pattern (path f)); by rw ?IH.
  - destruct (Str.fnmatch pattern (path f)), (Str.fnmatch pattern (path f'));
      try done. apply perm_swap.
  - by etrans.
Qed.

Lemma loaded_records_Permutation files files' :
  files ≡ₚ files' → loaded_records files ≡ₚ loaded_records files'.
Proof.
  induction 1 as [|f l l' _ IH|f f' l|l1 l2 l3 _ IH1 _ IH2];
    rw /loaded_records /= -?/(loaded_records _).
  - done.
  - by rw IH.
  - rw !app_assoc. apply Permutation_app; last done.
    apply Permutation_app_comm.
  - by etrans.
Qed.

Lemma site_totals_lookup dir s :
  let results := loaded_records (glob dir "*-parsed.json") in
  site_totals (snd (get_all_products dir)) !! s
  = match with_site s results with
    | [] => None
    | rs => Some (sum_len_products rs)
    end.
Proof.
  intros results. rw get_all_products_eq. fold results.
  destruct (glob dir "*-parsed.json") as [|f fs] eqn:G; first done.
  cbn [snd site_totals]. rw lookup_fmap.
  destruct (group_results_eq results s) as [_ ->].
  by destruct (with_site s results).
Qed.

(** X5. The order in which the directory lists its entries does not
    change the totals of GET /api/products: the [total] of every site,
    [total_products] and [total_sites] are the same for two listings of
    the same entries.  The location shown for a site is not: it is that of
    whichever record of the site is listed first. *)
Theorem get_all_products_totals_ignore_listing_order :
  (∀ dir dir' : list File, dir ≡ₚ dir' →
     site_totals (snd (get_all_products dir))
     = site_totals (snd (get_all_products dir')) ∧
     total_products_of (snd (get_all_products dir))
     = total_products_of (snd (get_all_products dir')) ∧
     total_sites_of (snd (get_all_products dir))
     = total_sites_of (snd (get_all_products dir'))) ∧
  (∃ sites sites',
     [dmart_mumbai; dmart_pune] ≡ₚ [dmart_pune; dmart_mumbai] ∧
     get_all_products [dmart_mumbai; dmart_pune]
     = ([], Ok (AllProducts "Success" sites [rice; milk; salt] 3 1)) ∧
     get_all_products [dmart_pune; dmart_mumbai]
     = ([], Ok (AllProducts "Success" sites' [salt; rice; milk] 3 1)) ∧
     (se_location <$> sites !! "dmart") = Some "Mumbai - Andheri West" ∧
     (se_location <$> sites' !! "dmart") = Some "Pune").
Proof.
  split.
  - intros dir dir' Hperm.
    assert (loaded_records (glob dir "*-parsed.json")
            ≡ₚ loaded_records (glob dir' "*-parsed.json")) as Hrec
      by by apply loaded_records_Permutation, glob_Permutation.
    split; last split.
    + apply map_eq. intros s. rw !site_totals_lookup.
      assert (with_site s (loaded_records (glob dir "*-parsed.json"))
              ≡ₚ with_site s (loaded_records (glob dir' "*-parsed.json"))) as Hs
        by by rw /with_site Hrec.
      destruct (with_site s (loaded_records (glob dir "*-parsed.json")))
        as [|r rs] eqn:E.
      * by apply Permutation_nil_l in Hs as <-.
      * destruct (with_site s (loaded_records (glob dir' "*-parsed.json")))
          as [|r' rs'] eqn:E'; first by apply Permutation_nil_r in Hs.
        f_equal. by rw /sum_len_products Hs.
    + rw !get_all_products_eq.
      pose proof (glob_Permutation dir dir' "*-parsed.json" Hperm) as Hglob.
      destruct (glob dir "*-parsed.json") as [|f fs] eqn:G.
      * by apply Permutation_nil_l in Hglob as <-.
      * destruct (glob dir' "*-parsed.json") as [|f' fs'] eqn:G';
          first by apply Permutation_nil_r in Hglob.
        cbn [snd total_products_of]. by rw /sum_len_products Hrec.
    + rw !total_sites_of_size. f_equal. apply set_eq. intros s.
      rw !elem_of_list_to_set. by rw Hrec.
  - eexists _, _. split; first apply perm_swap.
    split; first by vm_compute. split; first by vm_compute. by vm_compute.
Qed.

Lemma get_all_products_totals_ignore_listing_order_witness :
  total_products_of (snd (get_all_products [dmart_mumbai; zepto_pune]))
  = total_products_of (snd (get_all_products [zepto_pune; dmart_mumbai])).
Proof.
  destruct get_all_products_totals_ignore_listing_order as [H _].
  apply (H [dmart_mumbai; zepto_pune] [zepto_pune; dmart_mumbai]).
  apply perm_swap.
Defined.

(** ** GET /api/products/{site}: further properties *)

Lemma load_site_files_from site files log results :
  fold_left (load_site_file site) files (log, results)
  = (log ++ read_errors files,
     results ++ List.filter (site_is site) (loaded_records files)).
Proof.
  revert log results.
  induction files as [|f files IH]; intros log results; simpl.
  - by rw /read_errors /loaded_records /= !app_nil_r.
  - rw /read_errors /loaded_records /= /file_errors /file_records.
    destruct (load f) as [e|[data|data]]; simpl.
    + by rw IH -app_assoc.
    + by rw IH List.filter_app -app_assoc.
    + destruct (site_is site data); rw IH /= -?app_assoc //.
Qed.

Lemma site_results_eq dir site :
  site_results dir site
  = List.filter (site_is site) (loaded_records (site_json_files dir site)).
Proof. by rw /site_results load_site_files_from. Qed.

Lemma at_location_cons l r rs :
  at_location l (r :: rs)
  = if decide (location_of r = l) then r :: at_location l rs else at_location l rs.
Proof. rw /at_location filter_cons. by case_decide. Qed.

(** One pass of [group_location] over [rs], from any dictionary. *)
Lemma group_locations_from rs locations all_products l :
  let '(locations', all') := fold_left group_location rs (locations, all_products) in
  all' = all_products ++ all_products_of rs ∧
  locations' !! l =
    match locations !! l with
    | Some ps => Some (ps ++ all_products_of (at_location l rs))
    | None =>
        match at_location l rs with
        | [] => None
        | here => Some (all_products_of here)
        end
    end.
Proof.
  revert locations all_products.
  induction rs as [|r rs IH]; intros locations all_products.
  - simpl. split; first by rw app_nil_r.
    destruct (locations !! l) as [ps|] eqn:E; rw ?E //=. by rw app_nil_r.
  - cbn [fold_left]. unfold group_location at 2.
    fold (location_of r) (products_of r).
    match goal with |- context [fold_left _ rs (?m, ?a)] =>
      specialize (IH m a); destruct (fold_left group_location rs (m, a)) as [locs' all'] eqn:F
    end.
    destruct IH as [-> IH]. split.
    { by rw /all_products_of /= -app_assoc. }
    rw IH at_location_cons. clear IH F.
    destruct (decide (location_of r = l)) as [<-|Hne].
    + rw lookup_alter_eq.
      destruct (locations !! location_of r) as [ps|] eqn:E.
      * by rw E /= /all_products_of /= -app_assoc.
      * by rw lookup_insert_eq.
    + rw lookup_alter_ne //.
      destruct (locations !! location_of r) as [ps|] eqn:E; first done.
      by rw lookup_insert_ne.
Qed.

Lemma get_products_by_site_eq dir site :
  Str.lower site ∈ SUPPORTED_SITES →
  let s := Str.lower site in
  let json_files := site_json_files dir s in
  let results := site_results dir s in
  let no_data := Ok (SiteNoData ("No data found for site: " +:+ s) s [] 0) in
  get_products_by_site dir site =
    match json_files, results with
    | [], _ => ([], no_data)
    | _, [] => (read_errors json_files, no_data)
    | _, _ =>
        (read_errors json_files,
         Ok (SiteProducts "Success" s
               (fst (fold_left group_location results (∅, [])))
               (all_products_of results) (sum_len_products results)
               (size (fst (fold_left group_location results (∅, []))))))
    end.
Proof.
  intros Hsup%in_list_spec s json_files results.
  rw /get_products_by_site Hsup /=. fold s json_files.
  rw /results /site_results. fold json_files.
  destruct json_files as [|f fs] eqn:F; first done.
  rw load_site_files_from /=.
  destruct (List.filter _ _) as [|r rs] eqn:R; first done.
  pose proof (group_locations_from (r :: rs) ∅ [] "") as H.
  destruct (fold_left group_location (r :: rs) (∅, [])) as [locs all].
  destruct H as [-> _]. by rw /= length_all_products_of.
Qed.

(** X6. For a supported site, GET /api/products/{site} serves the
    products of the records, in the files it reads, whose [site]
    lower-cased is the query site: they make up [products], their number
    is [total_products], [locations] files them by location (a missing
    [location] under [Unknown]) with one key per distinct location, and
    "No data found" is the answer exactly when there is no such record. *)
Theorem get_products_by_site_groups_by_location (dir : list File) (site : string) :
  Str.lower site ∈ SUPPORTED_SITES →
  let results := site_results dir (Str.lower site) in
  (∀ r, r ∈ results ↔
        r ∈ loaded_records (site_json_files dir (Str.lower site)) ∧
        Str.lower (get (ProductData.site r) "") = Str.lower site) ∧
  match snd (get_products_by_site dir site) with
  | Ok (SiteProducts _ _ locations products total_products total_locations) =>
      results ≠ [] ∧
      products = all_products_of results ∧
      total_products = length products ∧
      (∀ l, locations !! l =
            match at_location l results with
            | [] => None
            | here => Some (all_products_of here)
            end) ∧
      total_locations = length (remove_dups (location_of <$> results))
  | Ok (SiteNoData _ _ products total) =>
      results = [] ∧ products = [] ∧ total = 0
  | HTTPException _ _ => False
  end.
Proof.
  intros Hsup results. split.
  - intros r. rw /results site_results_eq list_elem_of_In filter_In.
    by rw -list_elem_of_In /site_is String.eqb_eq.
  - rw (get_products_by_site_eq dir site Hsup). fold results.
    destruct (site_json_files dir (Str.lower site)) as [|f fs] eqn:F.
    { cbn [snd]. split; last done.
      by rw /results site_results_eq F. }
    destruct results as [|r rs] eqn:R; first done.
    cbn [snd]. split; first done. split; first done.
    split; first by rw length_all_products_of.
    assert (∀ l, (fold_left group_location (r :: rs) (∅, [])).1 !! l
                 = match at_location l (r :: rs) with
                   | [] => None
                   | here => Some (all_products_of here)
                   end) as Hlook.
    { intros l. pose proof (group_locations_from (r :: rs) ∅ [] l) as H.
      destruct (fold_left group_location (r :: rs) (∅, [])) as [locs all].
      destruct H as [_ H]. by rw lookup_empty in H. }
    split; first done.
    rw -size_dom.
    assert (dom (fold_left group_location (r :: rs) (∅, [])).1
            = list_to_set (remove_dups (location_of <$> r :: rs))) as ->.
    { apply set_eq. intros l.
      rw elem_of_dom Hlook elem_of_list_to_set elem_of_remove_dups list_elem_of_fmap.
      split.
      - intros Hsome. destruct (at_location l (r :: rs)) as [|r' rs'] eqn:A;
          first by destruct Hsome.
        assert (r' ∈ at_location l (r :: rs)) as Hr' by (rw A; left).
        apply list_elem_of_filter in Hr' as [? ?]. by exists r'.
      - intros (r' & -> & Hr').
        assert (r' ∈ at_location (location_of r') (r :: rs)) as Hin
          by by apply list_elem_of_filter.
        destruct (at_location (location_of r') (r :: rs));
          [by apply elem_of_nil in Hin | by eexists]. }
    rw size_list_to_set //. apply NoDup_remove_dups.
Qed.

Lemma get_products_by_site_groups_by_location_witness :
  Str.lower "Zepto" ∈ SUPPORTED_SITES ∧
  ∀ r, r ∈ site_results [dmart_mumbai; zepto_pune] (Str.lower "Zepto") ↔
       r ∈ loaded_records (site_json_files [dmart_mumbai; zepto_pune] (Str.lower "Zepto")) ∧
       Str.lower (get (ProductData.site r) "") = Str.lower "Zepto".
Proof.
  assert (Str.lower "Zepto" ∈ SUPPORTED_SITES) as H
    by (vm_compute; do 3 right; left).
  split; first exact H.
  exact (proj1 (get_products_by_site_groups_by_location
                  [dmart_mumbai; zepto_pune] "Zepto" H)).
Defined.

Lemma loaded_records_app fs1 fs2 :
  loaded_records (fs1 ++ fs2) = loaded_records fs1 ++ loaded_records fs2.
Proof. by rw /loaded_records map_app concat_app. Qed.

(** X7. For a supported site, [total_products] of GET /api/products/{site}
    is the number of products a single read of the files named
    [*{site}*-parsed.json] gives, plus once more the products of the
    files named [{site}*-parsed.json]: every file of the second kind is
    also of the first kind and is read twice. *)
Theorem get_products_by_site_total (dir : list File) (site : string) :
  Str.lower site ∈ SUPPORTED_SITES →
  let s := Str.lower site in
  let of_site files := List.filter (site_is s) (loaded_records files) in
  (∀ f, f ∈ glob dir (s +:+ "*-parsed.json") →
        f ∈ glob dir ("*" +:+ s +:+ "*-parsed.json")) ∧
  site_total_products (snd (get_products_by_site dir site))
  = sum_len_products (of_site (glob dir ("*" +:+ s +:+ "*-parsed.json")))
    + sum_len_products (of_site (glob dir (s +:+ "*-parsed.json"))).
Proof.
  intros Hsup s of_site. split.
  - intros f [Hf Hm]%elem_of_glob. apply elem_of_glob. split; first done.
    by apply (fnmatch_star_front (s +:+ "*-parsed.json")).
  - rw (get_products_by_site_eq dir site Hsup). fold s.
    assert (sum_len_products (site_results dir s)
            = sum_len_products (of_site (glob dir ("*" +:+ s +:+ "*-parsed.json")))
              + sum_len_products (of_site (glob dir (s +:+ "*-parsed.json")))) as <-.
    { rw site_results_eq /site_json_files loaded_records_app List.filter_app.
      rw sum_len_products_app /of_site. lia. }
    destruct (site_json_files dir s) as [|f fs] eqn:F.
    { by rw site_results_eq F. }
    by destruct (site_results dir s).
Qed.

Lemma get_products_by_site_total_witness :
  site_total_products (snd (get_products_by_site [dmart_mumbai; zepto_pune] "dmart"))
  = 2 + 2.
Proof.
  assert (Str.lower "dmart" ∈ SUPPORTED_SITES) as H by (vm_compute; left).
  exact (proj2 (get_products_by_site_total [dmart_mumbai; zepto_pune] "dmart" H)).
Defined.

(** X8. The site-scoped handlers fold the case of their arguments: two
    spellings of a site that differ in letter case only, and two such
    spellings of a location, get the same log and the same answer. *)
Theorem site_queries_fold_case (dir : list File) (site site' location location' : string) :
  Str.same_letters site site' →
  Str.same_letters location location' →
  get_products_by_site dir site = get_products_by_site dir site' ∧
  get_products_by_site_and_location dir site location
  = get_products_by_site_and_location dir site' location'.
Proof.
  intros Hs%same_letters_lower Hl%same_letters_lower.
  by rw /get_products_by_site /get_products_by_site_and_location Hs Hl.
Qed.

Lemma site_queries_fold_case_witness :
  get_products_by_site [dmart_mumbai] "DMart" = get_products_by_site [dmart_mumbai] "dmart" ∧
  get_products_by_site_and_location [dmart_mumbai] "DMart" "ANDHERI"
  = get_products_by_site_and_location [dmart_mumbai] "dmart" "andheri".
Proof.
  apply site_queries_fold_case; vm_compute; tauto.
Defined.

Lemma get_products_by_site_and_location_body dir site location :
  Str.lower site ∈ SUPPORTED_SITES →
  ∃ body,
    snd (get_products_by_site_and_location dir site location) = Ok body ∧
    site_location_products body
    = all_products_of (snd (matching_results dir (Str.lower site) (Str.lower location))).
Proof.
  intros E%in_list_spec.
  rw /get_products_by_site_and_location E /= matching_results_eq.
  destruct (site_json_files dir (Str.lower site)) as [|f fs] eqn:F; first by eexists.
  destruct (List.filter _ _) as [|r rs] eqn:K; first by eexists.
  eexists. split; first done. by rw /= products_from.
Qed.

Lemma get_products_by_site_body dir site :
  Str.lower site ∈ SUPPORTED_SITES →
  let results := site_results dir (Str.lower site) in
  match snd (get_products_by_site dir site) with
  | Ok (SiteProducts _ s locations products _ _) =>
      s = Str.lower site ∧ results ≠ [] ∧ products = all_products_of results ∧
      ∀ l, locations !! l = match at_location l results with
                            | [] => None
                            | here => Some (all_products_of here)
                            end
  | Ok (SiteNoData _ _ products _) => results = [] ∧ products = []
  | HTTPException _ _ => False
  end.
Proof.
  intros Hsup results. rw (get_products_by_site_eq dir site Hsup). fold results.
  destruct (site_json_files dir (Str.lower site)) as [|f fs] eqn:F.
  { cbn [snd]. split; last done. by rw /results site_results_eq F. }
  destruct results as [|r rs] eqn:R; first done.
  cbn [snd]. split; first done. split; first done. split; first done.
  intros l. pose proof (group_locations_from (r :: rs) ∅ [] l) as H.
  destruct (fold_left group_location (r :: rs) (∅, [])) as [locs all].
  destruct H as [_ H]. by rw lookup_empty in H.
Qed.

Lemma filter_result_matches site location rs :
  List.filter (result_matches site location) rs
  = List.filter (located_in location) (List.filter (site_is site) rs).
Proof.
  induction rs as [|r rs IH]; first done.
  rw /= /result_matches /site_is /located_in.
  destruct (String.eqb _ site); simpl; last done.
  destruct (Str.contains _ _); by rw /= IH.
Qed.

(** X9. GET /api/products/{site}/{location} narrows
    GET /api/products/{site}: the records it keeps are those of the site
    query whose location contains the query location, so each product it
    serves is served by the site query too, and it finds no data whenever
    the site query finds none. *)
Theorem site_and_location_narrows_site (dir : list File) (site location : string) :
  Str.lower site ∈ SUPPORTED_SITES →
  snd (matching_results dir (Str.lower site) (Str.lower location))
  = List.filter (located_in (Str.lower location)) (site_results dir (Str.lower site)) ∧
  ∃ body body',
    snd (get_products_by_site dir site) = Ok body ∧
    snd (get_products_by_site_and_location dir site location) = Ok body' ∧
    (∀ p, p ∈ site_location_products body' → p ∈ site_products body) ∧
    (site_products body = [] → site_location_products body' = []).
Proof.
  intros Hsup.
  assert (snd (matching_results dir (Str.lower site) (Str.lower location))
          = List.filter (located_in (Str.lower location))
                        (site_results dir (Str.lower site))) as Hkept
    by by rw matching_results_eq site_results_eq /= filter_result_matches.
  split; first done.
  destruct (get_products_by_site_and_location_body dir site location Hsup)
    as (body' & Hrun' & Hprod').
  pose proof (get_products_by_site_body dir site Hsup) as Hsite.
  assert (∀ p, p ∈ site_location_products body' →
               p ∈ all_products_of (site_results dir (Str.lower site))) as Hsub.
  { intros p. rw Hprod' Hkept !elem_of_all_products_of.
    intros (r & Hr & Hp). exists r. split; last done.
    by apply list_elem_of_In, filter_In in Hr as [?%list_elem_of_In _]. }
  destruct (snd (get_products_by_site dir site)) as [[? ? ps ?|? ? ? ps ? ?]|];
    last done.
  - destruct Hsite as (Hnone & ->). eexists _, body'.
    split; first done. split; first done. split.
    + intros p Hp%Hsub. rw Hnone in Hp. by apply elem_of_nil in Hp.
    + intros _. by rw Hprod' Hkept Hnone.
  - destruct Hsite as (_ & _ & -> & _). eexists _, body'.
    split; first done. split; first done. split; first done.
    simpl. intros Hempty. destruct (site_location_products body') as [|p ps'];
      first done.
    specialize (Hsub p ltac:(by left)). rw Hempty in Hsub.
    by apply elem_of_nil in Hsub.
Qed.

Lemma site_and_location_narrows_site_witness :
  snd (matching_results [dmart_mumbai; dmart_pune] (Str.lower "dmart") (Str.lower "Pune"))
  = List.filter (located_in (Str.lower "Pune"))
                (site_results [dmart_mumbai; dmart_pune] (Str.lower "dmart")).
Proof.
  assert (Str.lower "dmart" ∈ SUPPORTED_SITES) as H by (vm_compute; left).
  exact (proj1 (site_and_location_narrows_site [dmart_mumbai; dmart_pune] "dmart" "Pune" H)).
Defined.

(** X10. A record without a [location] key is never kept by
    GET /api/products/{site}/{location}, whatever the (non-empty) query
    location, while GET /api/products/{site} serves its products under
    the location [Unknown]. *)
Theorem record_without_location_key
    (dir : list File) (site location : string) (r : ProductData.t) :
  Str.lower site ∈ SUPPORTED_SITES →
  location ≠ "" →
  ProductData.location r = None →
  (r ∉ snd (matching_results dir (Str.lower site) (Str.lower location))) ∧
  (r ∈ site_results dir (Str.lower site) →
   ∃ msg locations products total_products total_locations here,
     snd (get_products_by_site dir site)
     = Ok (SiteProducts msg (Str.lower site) locations products
             total_products total_locations) ∧
     locations !! "Unknown" = Some here ∧
     ∀ p, p ∈ products_of r → p ∈ here).
Proof.
  intros Hsup Hloc Hnone. split.
  - rw matching_results_eq /= list_elem_of_In filter_In.
    intros [_ Hm]. rw /result_matches Hnone /= in Hm.
    apply andb_true_iff in Hm as [_ Hm]. rw orb_false_r in Hm.
    destruct location as [|c location]; first done. by simpl in Hm.
  - intros Hin.
    pose proof (get_products_by_site_body dir site Hsup) as H.
    destruct (snd (get_products_by_site dir site))
      as [[? ? ? ?|msg s locations products tp tl]|] eqn:R; last done.
    { destruct H as [Hno _]. rw Hno in Hin. by apply elem_of_nil in Hin. }
    destruct H as (-> & _ & _ & Hlook).
    assert (r ∈ at_location "Unknown" (site_results dir (Str.lower site))) as Hat.
    { apply list_elem_of_filter. split; last done. by rw /location_of Hnone. }
    specialize (Hlook "Unknown").
    destruct (at_location "Unknown" (site_results dir (Str.lower site)))
      as [|r' rs'] eqn:A; first by apply elem_of_nil in Hat.
    eexists _, _, _, _, _, _. split; first done. split; first exact Hlook.
    intros p Hp. apply elem_of_all_products_of. by exists r.
Qed.

Lemma record_without_location_key_witness :
  (dmart_nowhere ∈ site_results [dmart_nowhere_file] (Str.lower "dmart")) ∧
  (dmart_nowhere ∉ snd (matching_results [dmart_nowhere_file]
                          (Str.lower "dmart") (Str.lower "pune"))).
Proof.
  split; first by left.
  assert (Str.lower "dmart" ∈ SUPPORTED_SITES) as H by (vm_compute; left).
  apply (record_without_location_key [dmart_nowhere_file] "dmart" "pune"
           dmart_nowhere H); done.
Defined.

(** ** POST /api/scrape: further properties *)

Lemma insert_by_mtime_Permutation x l : insert_by_mtime x l ≡ₚ x :: l.
Proof.
  induction l as [|y l IH]; first done.
  simpl. destruct (getmtime y <=? getmtime x)%Z; first done.
  rw IH. apply perm_swap.
Qed.

Lemma insert_by_mtime_sorted x l :
  StronglySorted newer_or_equal l → StronglySorted newer_or_equal (insert_by_mtime x l).
Proof.
  induction 1 as [|y l Hl IH Hy]; simpl.
  - by repeat constructor.
  - destruct (Z.leb_spec (getmtime y) (getmtime x)) as [Hle|Hlt].
    + constructor; first by constructor.
      constructor; first done.
      eapply Forall_impl; first exact Hy.
      intros z Hz. rw /newer_or_equal in Hz |- *. lia.
    + constructor; first done.
      rw insert_by_mtime_Permutation. constructor; last done.
      rw /newer_or_equal. lia.
Qed.

Lemma insert_by_mtime_filter (t : Z) x l :
  StronglySorted newer_or_equal l →
  filter (λ f, getmtime f = t) (insert_by_mtime x l)
  = filter (λ f, getmtime f = t) (x :: l).
Proof.
  induction 1 as [|y l Hl IH Hy]; first done.
  simpl. destruct (Z.leb_spec (getmtime y) (getmtime x)) as [Hle|Hlt]; first done.
  rw (filter_cons _ y) IH !filter_cons.
  destruct (decide (getmtime y = t)), (decide (getmtime x = t)); try done. lia.
Qed.

(** X11. [sorted(..., key=os.path.getmtime, reverse=True)] as the scrape
    handler uses it: the result holds the same entries, newest first, and
    entries of equal modification time keep the order of the listing. *)
Theorem sorted_by_mtime_reverse_is_a_stable_sort (l : list File) :
  sorted_by_mtime_reverse l ≡ₚ l ∧
  StronglySorted newer_or_equal (sorted_by_mtime_reverse l) ∧
  ∀ t : Z, filter (λ f, getmtime f = t) (sorted_by_mtime_reverse l)
           = filter (λ f, getmtime f = t) l.
Proof.
  induction l as [|x l (IHp & IHs & IHf)].
  - split; first done. split; first constructor. done.
  - simpl. split; last split.
    + by rw insert_by_mtime_Permutation IHp.
    + by apply insert_by_mtime_sorted.
    + intros t. rw insert_by_mtime_filter // !filter_cons IHf //.
Qed.




Lemma size_list_to_set_le (l : list string) :
  (size (list_to_set l : gset string) ≤ length l)%nat.
Proof.
  induction l as [|x l IH]; first done.
  rw /= size_union_alt size_singleton.
  assert (size (list_to_set l ∖ {[x]} : gset string) ≤ size (list_to_set l : gset string))%nat
    by (apply subseteq_size; intros y [? _]%elem_of_difference; done).
  lia.
Qed.

Lemma size_scraped_sites_of l :
  (size (list_to_set (scraped_sites_of l) : gset string) ≤ length l)%nat.
Proof.
  etrans; first apply size_list_to_set_le.
  rw /scraped_sites_of length_map. apply filter_length_le.
Qed.

(** X13. In every answer of POST /api/scrape, [total_sites], when
    present, is the number of records in [data] (1 for a batch artifact
    that is a single object), not the number of distinct sites, and
    [sites_scraped] never has more elements; [total_sites] is absent
    only from the answer with empty [data] and empty [sites_scraped]. *)
Theorem scrape_total_sites_counts_records (request : ScrapeRequest.t) (w : World) :
  match snd (scrape_products request w) with
  | Ok body =>
      match total_sites body with
      | Some n => n = length (records_of (data body)) ∧
                  (size (sites_scraped body) ≤ n)%nat
      | None => data body = JList [] ∧ sites_scraped body = ∅
      end
  | HTTPException _ _ => True
  end.
Proof.
  assert (match snd (scrape_after_orchestrator request w) with
          | Ok body =>
              match total_sites body with
              | Some n => n = length (records_of (data body))
                          ∧ (size (sites_scraped body) ≤ n)%nat
              | None => data body = JList [] ∧ sites_scraped body = ∅
              end
          | HTTPException _ _ => True
          end) as Hafter.
  { rw /scrape_after_orchestrator.
    destruct (html_files w) as [|h hs]; first done.
    destruct (parser w) as [e|p]; first done.
    destruct (sorted_by_mtime_reverse _) as [|newest rest].
    - rw load_individual_files_from /=. split; first done.
      apply size_scraped_sites_of.
    - destruct (load newest) as [e|[l|d]]; first done.
      + simpl. split; first done. apply size_scraped_sites_of.
      + simpl. split; first done.
        pose proof (size_scraped_sites_of [d]) as H.
        rw /scraped_sites_of /= in H. by destruct (has_products d). }
  rw /scrape_products. destruct (orchestrator w) as [e|process]; first done.
  destruct (returncode process =? 0)%Z; first done.
  destruct (error_msg process) as [e|msg]; first done.
  by destruct (scrape_after_orchestrator request w).
Qed.



(** X15. When no batch artifact exists, the data POST /api/scrape falls
    back to is what GET /api/products aggregates over the same store: the
    products of the records in [data] are the product list of
    GET /api/products, and [total_sites] is the number of those records. *)
Theorem scrape_fallback_agrees_with_get_all_products
    (request : ScrapeRequest.t) (w : World) :
  orchestrator_done w →
  html_files w ≠ [] →
  (∃ parse_process, parser w = inr parse_process) →
  batch_files w = [] →
  ∃ body body',
    snd (scrape_products request w) = Ok body ∧
    snd (get_all_products (outputs_dir w)) = Ok body' ∧
    all_products_of (records_of (data body)) = response_products body' ∧
    total_sites body = Some (length (records_of (data body))).
Proof.
  intros Hdone Hhtml [parse_process Hparse] Hbatch.
  rw (scrape_products_done _ _ Hdone) /scrape_after_orchestrator Hparse.
  destruct (html_files w) as [|h hs]; first done.
  rw -/(batch_files w) Hbatch /= load_individual_files_from /=.
  rw get_all_products_eq.
  destruct (glob (outputs_dir w) "*-parsed.json") as [|f fs]; by eexists _, _.
Qed.

Lemma scrape_fallback_agrees_with_get_all_products_witness :
  batch_files fallback_scrape = [] ∧
  ∃ body body',
    snd (scrape_products rice_request fallback_scrape) = Ok body ∧
    snd (get_all_products (outputs_dir fallback_scrape)) = Ok body' ∧
    all_products_of (records_of (data body)) = response_products body'.
Proof.
  split; first done.
  destruct (scrape_fallback_agrees_with_get_all_products rice_request fallback_scrape)
    as (body & body' & H1 & H2 & H3 & _).
  - eexists. split; first reflexivity. by left.
  - done.
  - eexists. reflexivity.
  - reflexivity.
  - by exists body, body'.
Defined.

(** ** File names and patterns *)

Lemma fnmatch_literal p n :
  star_free p = true → (Str.fnmatch p n = true ↔ n = p).
Proof.
  revert n. induction p as [|c p IH]; intros n Hfree.
  - destruct n; by split.
  - simpl in Hfree. apply andb_true_iff in Hfree as [Hc Hp].
    apply negb_true_iff in Hc. rw /= Hc.
    destruct n as [|d n]; first by split.
    destruct (Ascii.eqb_spec c d) as [->|Hne].
    + rw (IH n Hp). split; [by intros -> | by intros [= ->]].
    + split; [done | by intros [= ? ?]].
Qed.

Lemma fnmatch_star p n :
  Str.fnmatch ("*" +:+ p) n = true ↔ ∃ a b, n = a +:+ b ∧ Str.fnmatch p b = true.
Proof.
  change (Str.fnmatch ("*" +:+ p) n)
    with ((fix star (n : string) : bool :=
             Str.fnmatch p n ||
             match n with EmptyString => false | String _ n' => star n' end) n).
  induction n as [|c n IH].
  - rw orb_false_r. split.
    + intros H. by exists "", "".
    + intros ([|? ?] & b & Heq & H); last done. by rw Heq.
  - rw orb_true_iff IH. split.
    + intros [H|(a & b & -> & H)].
      * by exists "", (String c n).
      * by exists (String c a), b.
    + intros ([|c' a] & b & Heq & H).
      * left. by rw Heq.
      * right. injection Heq as _ ->. by exists a, b.
Qed.

Lemma fnmatch_literal_then l p n :
  star_free l = true →
  (Str.fnmatch (l +:+ p) n = true ↔ ∃ b, n = l +:+ b ∧ Str.fnmatch p b = true).
Proof.
  revert n. induction l as [|c l IH]; intros n Hfree.
  - split; [intros H; by exists n | by intros (b & -> & H)].
  - simpl in Hfree. apply andb_true_iff in Hfree as [Hc Hl].
    apply negb_true_iff in Hc. rw /= Hc.
    destruct n as [|d n]; first by split; [|intros (? & ? & _)].
    destruct (Ascii.eqb_spec c d) as [->|Hne].
    + rw (IH n Hl). split; intros (b & Heq & H); exists b.
      * by rw Heq.
      * by injection Heq as ->.
    + split; [done | intros (b & [= ? ?] & _); by subst].
Qed.

Lemma endswith_spec s suffix : endswith s suffix = true ↔ ∃ a, s = a +:+ suffix.
Proof.
  induction s as [|c s IH].
  - change (endswith "" suffix) with (String.eqb "" suffix || false).
    rw orb_false_r String.eqb_eq. split.
    + intros <-. by exists "".
    + intros ([|? ?] & H); [done | by destruct suffix].
  - change (endswith (String c s) suffix)
      with (String.eqb (String c s) suffix || endswith s suffix).
    rw orb_true_iff String.eqb_eq IH. split.
    + intros [<-|[a ->]]; [by exists "" | by exists (String c a)].
    + intros ([|c' a] & H); first by left.
      right. injection H as _ ->. by exists a.
Qed.

(** X16. Which entries each handler picks up by name.  GET /api/products
    and the fallback of POST /api/scrape read the entries whose name ends
    in [-parsed.json]; the queries for a supported site read those whose
    name has the site somewhere before that ending, the first of their
    two patterns asking for it at the very start; the batch artifacts are
    the entries named [parsed-results-], anything, [.json]. *)
Theorem glob_patterns (dir : list File) (site : string) (f : File) :
  site ∈ SUPPORTED_SITES →
  (f ∈ glob dir "*-parsed.json" ↔
     f ∈ dir ∧ ∃ a, path f = a +:+ "-parsed.json") ∧
  (f ∈ glob dir ("*" +:+ site +:+ "*-parsed.json") ↔
     f ∈ dir ∧ ∃ a b, path f = a +:+ site +:+ b +:+ "-parsed.json") ∧
  (f ∈ glob dir (site +:+ "*-parsed.json") ↔
     f ∈ dir ∧ ∃ b, path f = site +:+ b +:+ "-parsed.json") ∧
  (f ∈ glob dir "parsed-results-*.json" ↔
     f ∈ dir ∧ ∃ b, path f = "parsed-results-" +:+ b +:+ ".json").
Proof.
  intros Hsite.
  assert (star_free site = true) as Hfree.
  { rw /SUPPORTED_SITES !elem_of_cons in Hsite.
    destruct Hsite as [->|[->|[->|[->|[->|Hin]]]]]; try done.
    by apply elem_of_nil in Hin. }
  assert (∀ lit n, star_free lit = true →
            (Str.fnmatch ("*" +:+ lit) n = true ↔ ∃ a, n = a +:+ lit)) as Hends.
  { intros lit n Hlit. rw fnmatch_star. split.
    - intros (a & b & -> & H). apply fnmatch_literal in H as ->; last done.
      by exists a.
    - intros [a ->]. exists a, lit. split; first done. by apply fnmatch_literal. }
  assert (∀ front back n, star_free front = true → star_free back = true →
            (Str.fnmatch (front +:+ "*" +:+ back) n = true
             ↔ ∃ b, n = front +:+ b +:+ back)) as Hmid.
  { intros front back n Hfront Hback. rw fnmatch_literal_then //. split.
    - intros (b & -> & [a ->]%Hends); last done. by exists a.
    - intros [b ->]. exists (b +:+ back). split; first done.
      apply Hends; first done. by exists b. }
  rw !elem_of_glob. split; last split; last split.
  - by rw (Hends "-parsed.json").
  - rw fnmatch_star. split.
    + intros [Hin (a & b & Hpath & [c ->]%(Hmid site "-parsed.json"))]; try done.
      split; first done. by exists a, c.
    + intros [Hin (a & b & Hpath)]. split; first done.
      exists a, (site +:+ b +:+ "-parsed.json"). split; first done.
      apply (Hmid site "-parsed.json"); try done. by exists b.
  - by rw (Hmid site "-parsed.json").
  - by rw (Hmid "parsed-results-" ".json").
Qed.

Lemma glob_patterns_witness :
  dmart_mumbai ∈ glob [dmart_mumbai; zepto_pune] ("dmart" +:+ "*-parsed.json") ↔
  dmart_mumbai ∈ [dmart_mumbai; zepto_pune] ∧
  ∃ b, path dmart_mumbai = "dmart" +:+ b +:+ "-parsed.json".
Proof.
  assert ("dmart" ∈ SUPPORTED_SITES) as H by left.
  exact (proj1 (proj2 (proj2 (glob_patterns [dmart_mumbai; zepto_pune] "dmart"
                                dmart_mumbai H)))).
Defined.

(** ** POST /api/parse and POST /api/upload: properties *)

Lemma find_file_Some dir name f :
  find_file dir name = Some f → f ∈ dir ∧ path f = name.
Proof.
  intros H. rw /find_file in H. apply find_some in H as [Hin Heq].
  split; first by apply list_elem_of_In. by apply String.eqb_eq.
Qed.

Lemma parsed_json_status prefix stem run :
  status_of (parsed_json prefix stem run) = 200 ∨
  status_of (parsed_json prefix stem run) = 500.
Proof.
  rw /parsed_json. destruct (parse_process run) as [e|process]; first by right.
  destruct (negb _).
  - destruct (error_msg process); by right.
  - destruct (find_file _ _) as [f|]; last by right.
    destruct (load f); [by right | by left].
Qed.

Lemma parsed_json_Ok prefix stem run data :
  parsed_json prefix stem run = Ok data ↔
  ∃ process json_file,
    parse_process run = inr process ∧
    returncode process = 0%Z ∧
    find_file (outputs_after run) (stem +:+ "-parsed.json") = Some json_file ∧
    load json_file = inr data.
Proof.
  rw /parsed_json. split.
  - destruct (parse_process run) as [e|process]; first done.
    destruct (Z.eqb_spec (returncode process) 0) as [Hrc|Hrc]; simpl.
    + destruct (find_file _ _) as [f|] eqn:F; last done.
      destruct (load f) as [e|d] eqn:L; first done.
      intros [= <-]. by exists process, f.
    + by destruct (error_msg process).
  - intros (process & f & -> & Hrc & -> & ->). by rw Hrc.
Qed.

(** X17. The checks of POST /api/parse come in a fixed order.  The
    status is 404 exactly when the path does not exist, whatever its
    suffix, and 400 exactly when it exists with a suffix other than
    [.html]; in both cases the parser is not run, so nothing it would do
    matters.  Any other outcome is a body or a 500. *)
Theorem parse_html_file_checks
    (file_path : string) (html_path : Path.t) (run : ParserRun) :
  let response := parse_html_file file_path html_path run in
  (status_of response = 404 ↔ Path.is_there html_path = false) ∧
  (status_of response = 400 ↔
     Path.is_there html_path = true ∧ Path.suffix html_path ≠ ".html") ∧
  (status_of response = 404 ∨ status_of response = 400 →
     ∀ run', parse_html_file file_path html_path run' = response) ∧
  (status_of response = 200 ∨ status_of response = 400 ∨
   status_of response = 404 ∨ status_of response = 500).
Proof.
  rw /parse_html_file.
  destruct (Path.is_there html_path); simpl.
  - destruct (String.eqb_spec (Path.suffix html_path) ".html") as [Hs|Hs]; simpl.
    + assert (∀ r : http artifact,
                status_of (match r with
                           | Ok data =>
                               Ok {| ParseResponse.message := "Successfully parsed HTML file";
                                     ParseResponse.filename := None;
                                     ParseResponse.data := data |}
                           | HTTPException s d => HTTPException s d
                           end) = status_of r) as Hst by by intros [].
      rw Hst.
      destruct (parsed_json_status "Error parsing file: " (Path.stem html_path) run)
        as [->| ->].
      * split; first done. split; first by split; [|intros [_ ?]].
        split; [by intros [|] | by left].
      * split; first done. split; first by split; [|intros [_ ?]].
        split; [by intros [|] | by do 3 right].
    + split; first done. split; first done. split; first done.
      right. by left.
  - split; first done. split; first by split; [|intros [? _]].
    split; first done. do 2 right. by left.
Qed.

(** X18. POST /api/parse answers with a body exactly when the path
    exists with suffix [.html], the parser ran and exited with status 0,
    and the entry [<stem>-parsed.json] of [OUTPUTS_DIR] loads; the data
    of the body is then what that entry holds.  In particular a parser
    that exits with another status never yields a body, even if an
    artifact of that name is in the store. *)
Theorem parse_html_file_success
    (file_path : string) (html_path : Path.t) (run : ParserRun)
    (body : ParseResponse.t) :
  parse_html_file file_path html_path run = Ok body ↔
  Path.is_there html_path = true ∧
  Path.suffix html_path = ".html" ∧
  body = {| ParseResponse.message := "Successfully parsed HTML file";
            ParseResponse.filename := None;
            ParseResponse.data := ParseResponse.data body |} ∧
  ∃ process json_file,
    parse_process run = inr process ∧
    returncode process = 0%Z ∧
    json_file ∈ outputs_after run ∧
    path json_file = Path.stem html_path +:+ "-parsed.json" ∧
    find_file (outputs_after run) (path json_file) = Some json_file ∧
    load json_file = inr (ParseResponse.data body).
Proof.
  rw /parse_html_file. split.
  - destruct (Path.is_there html_path); last done.
    destruct (String.eqb_spec (Path.suffix html_path) ".html") as [Hs|Hs];
      last done.
    simpl. destruct (parsed_json _ _ run) as [data|] eqn:P; last done.
    intros [= <-]. split; first done. split; first done. split; first done.
    apply parsed_json_Ok in P as (process & f & Hp & Hrc & Hf & Hl).
    destruct (find_file_Some _ _ _ Hf) as [Hin Hpath].
    exists process, f. by rw Hpath.
  - intros (-> & -> & Hbody & process & f & Hp & Hrc & _ & Hpath & Hf & Hl).
    simpl. rw Hpath in Hf.
    assert (parsed_json "Error parsing file: " (Path.stem html_path) run
            = Ok (ParseResponse.data body)) as ->
      by (apply parsed_json_Ok; by exists process, f).
    by rw {2}Hbody.
Qed.

(** X19. A parser that exits with a non-zero status is fatal for
    POST /api/parse and POST /api/upload, which answer 500 even when an
    artifact of the expected name is in the store, and is of no
    consequence for POST /api/scrape, whose log and response do not
    depend on how the parser ended. *)
Theorem parser_exit_status_matters_for_parse_only (process : Process) :
  returncode process ≠ 0%Z →
  (∀ file_path html_path dir,
     Path.is_there html_path = true → Path.suffix html_path = ".html" →
     status_of (parse_html_file file_path html_path
                  {| parse_process := inr process; outputs_after := dir |}) = 500) ∧
  (∀ file upload_path dir,
     endswith (UploadFile.filename file) ".html" = true →
     status_of (snd (upload_and_parse file upload_path None
                       {| parse_process := inr process; outputs_after := dir |})) = 500) ∧
  (∀ request w process',
     scrape_products request (set_parser (inr process) w)
     = scrape_products request (set_parser (inr process') w)).
Proof.
  intros Hrc%Z.eqb_neq.
  assert (∀ prefix stem dir,
            status_of (parsed_json prefix stem
                         {| parse_process := inr process; outputs_after := dir |})
            = 500) as H.
  { intros. rw /parsed_json /= Hrc /=. by destruct (error_msg process). }
  split; last split; last done.
  - intros file_path html_path dir Hthere Hsuffix.
    rw /parse_html_file Hthere Hsuffix /=.
    specialize (H "Error parsing file: " (Path.stem html_path) dir).
    by destruct (parsed_json _ _ _).
  - intros file upload_path dir Hends.
    rw /upload_and_parse Hends /=.
    specialize (H "Error processing file: " (Path.stem upload_path) dir).
    by destruct (parsed_json _ _ _).
Qed.

Lemma parser_exit_status_matters_for_parse_only_witness :
  status_of (parse_html_file "output/page.html" page_html failed_run) = 500 ∧
  status_of (parse_html_file "output/page.html" page_html good_run) = 200.
Proof.
  split; last done.
  apply (parser_exit_status_matters_for_parse_only
           {| returncode := 1; stderr := "no products found" |}); done.
Defined.

(** X20. POST /api/upload refuses a file name that does not end in
    [.html] with a 400 and writes nothing.  Otherwise it saves the bytes
    under [OUTPUTS_DIR / filename] before the parser is started, so the
    file stays whatever the parser does, and its status is 200 or 500.
    Set against POST /api/parse on the saved path: when the suffix of
    that path is [.html] the two give the same status and, for a body,
    the same data, the upload adding the client's file name; when it is
    not (a file named [.html] ends in [.html] and has no suffix), parse
    answers 400 although the upload has run the parser. *)
Theorem upload_is_save_then_parse
    (file : UploadFile.t) (upload_path : Path.t) (save : option exn)
    (run : ParserRun) :
  let result := upload_and_parse file upload_path save run in
  (endswith (UploadFile.filename file) ".html" = false →
     result = ([], HTTPException 400 (Text "File must be an HTML file"))) ∧
  (fst result = [] ↔
     endswith (UploadFile.filename file) ".html" = false ∨ save ≠ None) ∧
  (endswith (UploadFile.filename file) ".html" = true → save = None →
     fst result = [Saved (Path.str upload_path) (UploadFile.content file)] ∧
     (status_of (snd result) = 200 ∨ status_of (snd result) = 500) ∧
     ∀ file_path,
       Path.is_there upload_path = true →
       if String.eqb (Path.suffix upload_path) ".html" then
         match snd result, parse_html_file file_path upload_path run with
         | Ok body, Ok body' =>
             ParseResponse.data body = ParseResponse.data body' ∧
             ParseResponse.filename body = Some (UploadFile.filename file)
         | HTTPException status _, HTTPException status' _ => status = status'
         | _, _ => False
         end
       else status_of (parse_html_file file_path upload_path run) = 400).
Proof.
  rw /upload_and_parse.
  destruct (endswith (UploadFile.filename file) ".html"); simpl.
  - split; first done. split.
    + destruct save; split; try done; [by right | by intros [|]].
    + intros _ ->. split; first done. split.
      { destruct (parsed_json_status "Error processing file: "
                    (Path.stem upload_path) run) as [H|H];
          destruct (parsed_json _ _ run); simpl in *; auto. }
      intros file_path Hthere.
      rw /parse_html_file Hthere /=.
      destruct (String.eqb (Path.suffix upload_path) ".html"); last done.
      rw /= /parsed_json.
      destruct (parse_process run) as [e|process]; first done.
      destruct (negb _); first by destruct (error_msg process).
      destruct (find_file _ _) as [f|]; last done.
      by destruct (load f).
  - split; first done. split; [by split; [left|] | done].
Qed.

Lemma upload_is_save_then_parse_witness :
  endswith (UploadFile.filename page_upload) ".html" = true ∧
  fst (upload_and_parse page_upload uploaded_page None good_run)
  = [Saved "outputs/page.html" "<html></html>"].
Proof.
  split; first done.
  by apply (upload_is_save_then_parse page_upload uploaded_page None good_run).
Defined.

Lemma get_all_products_serves p f dir :
  f ∈ glob dir "*-parsed.json" →
  p ∈ file_products f →
  ∃ body, snd (get_all_products dir) = Ok body ∧ p ∈ response_products body.
Proof.
  intros Hf Hp. rw get_all_products_eq.
  assert (p ∈ all_products_of (loaded_records (glob dir "*-parsed.json"))) as H.
  { rw /file_products elem_of_all_products_of in Hp.
    destruct Hp as (r & Hr & Hp). apply elem_of_all_products_of. exists r.
    split; last done. apply elem_of_loaded_records. by exists f. }
  destruct (glob dir "*-parsed.json") as [|g gs]; first by apply elem_of_nil in Hf.
  by eexists.
Qed.

Lemma parse_html_file_Ok_inv file_path html_path run body :
  parse_html_file file_path html_path run = Ok body →
  ∃ json_file,
    json_file ∈ outputs_after run ∧
    path json_file = Path.stem html_path +:+ "-parsed.json" ∧
    load json_file = inr (ParseResponse.data body).
Proof.
  rw /parse_html_file.
  destruct (Path.is_there html_path); last done.
  destruct (String.eqb (Path.suffix html_path) ".html"); last done.
  simpl. destruct (parsed_json _ _ run) as [data|] eqn:P; last done.
  intros [= <-]. apply parsed_json_Ok in P as (process & f & _ & _ & Hf & Hl).
  destruct (find_file_Some _ _ _ Hf) as [Hin Hpath]. by exists f.
Qed.

(** X21. What POST /api/parse returns is what GET /api/products serves:
    after a successful parse every product of the returned data is in the
    product list GET /api/products computes over the same store. *)
Theorem parsed_products_are_served
    (file_path : string) (html_path : Path.t) (run : ParserRun)
    (body : ParseResponse.t) :
  parse_html_file file_path html_path run = Ok body →
  ∃ body',
    snd (get_all_products (outputs_after run)) = Ok body' ∧
    ∀ p, p ∈ all_products_of (records_of (ParseResponse.data body)) →
         p ∈ response_products body'.
Proof.
  intros (f & Hin & Hpath & Hload)%parse_html_file_Ok_inv.
  assert (f ∈ glob (outputs_after run) "*-parsed.json") as Hglob.
  { apply elem_of_glob. split; first done.
    rw Hpath. apply (fnmatch_star "-parsed.json").
    exists (Path.stem html_path), "-parsed.json". by split. }
  assert (file_products f = all_products_of (records_of (ParseResponse.data body)))
    as Hprod by by rw /file_products /file_records Hload.
  assert (∃ body', snd (get_all_products (outputs_after run)) = Ok body') as [body' Hbody'].
  { rw get_all_products_eq. destruct (glob _ _); by eexists. }
  exists body'. split; first done.
  intros p Hp. rw -Hprod in Hp.
  destruct (get_all_products_serves p f _ Hglob Hp) as (b & Hb & Hpb).
  rw Hbody' in Hb. by injection Hb as ->.
Qed.

Lemma parsed_products_are_served_witness :
  ∃ body',
    snd (get_all_products (outputs_after good_run)) = Ok body' ∧
    ∀ p, p ∈ [rice; milk] → p ∈ response_products body'.
Proof.
  apply (parsed_products_are_served "output/page.html" page_html good_run
           {| ParseResponse.message := "Successfully parsed HTML file";
              ParseResponse.filename := None;
              ParseResponse.data := JDict page_dmart |}).
  reflexivity.
Defined.

Lemma append_assoc a b c : (a +:+ b) +:+ c = a +:+ (b +:+ c).
Proof.
  induction a as [|x a IH]; first done.
  change (String x ((a +:+ b) +:+ c) = String x (a +:+ (b +:+ c))). by rw IH.
Qed.

Lemma append_last_inj x y c d :
  x +:+ String c "" = y +:+ String d "" → c = d.
Proof.
  revert y. induction x as [|a x IH]; intros [|b y]; simpl.
  - by intros [= ->].
  - intros [= _ H]. by destruct y.
  - intros [= _ H]. by destruct x.
  - intros [= _ H]. by apply (IH y).
Qed.

Lemma fnmatch_last p c n :
  Ascii.eqb c "*"%char = false →
  Str.fnmatch (p +:+ String c "") n = true → ∃ a, n = a +:+ String c "".
Proof.
  intros Hc. revert n. induction p as [|x p IH]; intros n.
  - rw /= Hc. destruct n as [|d n]; first done.
    destruct (Ascii.eqb_spec c d) as [->|]; last done.
    destruct n; last done. by exists "".
  - destruct (Ascii.eqb_spec x "*"%char) as [->|Hx].
    + intros (a & b & -> & [a' ->]%IH)%(fnmatch_star (p +:+ String c "")).
      exists (a +:+ a'). by rw append_assoc.
    + apply Ascii.eqb_neq in Hx. rw /= Hx.
      destruct n as [|d n]; first done.
      destruct (Ascii.eqb x d); last done.
      intros [a ->]%IH. by exists (String d a).
Qed.

Lemma html_name_is_no_json p name :
  endswith name ".html" = true → Str.fnmatch (p +:+ "n") name = false.
Proof.
  intros [a ->]%endswith_spec. apply not_true_is_false.
  intros [b H]%fnmatch_last; last done.
  change (a +:+ ".html") with (a +:+ (".htm" +:+ "l")) in H.
  rw -append_assoc in H. by apply append_last_inj in H.
Qed.

Lemma glob_skip dir1 dir2 f pattern :
  Str.fnmatch pattern (path f) = false →
  glob (dir1 ++ f :: dir2) pattern = glob (dir1 ++ dir2) pattern.
Proof. intros H. by rw /glob !List.filter_app /= H. Qed.

(** X22. An entry whose name ends in [.html], such as a page saved by
    POST /api/upload, is never taken for an artifact: with or without it
    in [OUTPUTS_DIR], the logs and answers of GET /api/products, of both
    site-scoped queries and of POST /api/scrape are the same. *)
Theorem html_entries_are_invisible (dir1 dir2 : list File) (f : File) :
  endswith (path f) ".html" = true →
  get_all_products (dir1 ++ f :: dir2) = get_all_products (dir1 ++ dir2) ∧
  (∀ site, get_products_by_site (dir1 ++ f :: dir2) site
           = get_products_by_site (dir1 ++ dir2) site) ∧
  (∀ site location,
     get_products_by_site_and_location (dir1 ++ f :: dir2) site location
     = get_products_by_site_and_location (dir1 ++ dir2) site location) ∧
  (∀ request w,
     scrape_products request (set_outputs_dir (dir1 ++ f :: dir2) w)
     = scrape_products request (set_outputs_dir (dir1 ++ dir2) w)).
Proof.
  intros Hhtml.
  assert (∀ p, glob (dir1 ++ f :: dir2) (p +:+ "n") = glob (dir1 ++ dir2) (p +:+ "n"))
    as Hglob by (intros p; by apply glob_skip, html_name_is_no_json).
  assert (glob (dir1 ++ f :: dir2) "*-parsed.json" = glob (dir1 ++ dir2) "*-parsed.json")
    as Hall by apply (Hglob "*-parsed.jso").
  assert (glob (dir1 ++ f :: dir2) "parsed-results-*.json"
          = glob (dir1 ++ dir2) "parsed-results-*.json")
    as Hbatch by apply (Hglob "parsed-results-*.jso").
  assert (∀ s, site_json_files (dir1 ++ f :: dir2) s = site_json_files (dir1 ++ dir2) s)
    as Hsite.
  { intros s.
    assert (s +:+ "*-parsed.json" = (s +:+ "*-parsed.jso") +:+ "n") as E1
      by by rw append_assoc.
    assert ("*" +:+ s +:+ "*-parsed.json" = ("*" +:+ s +:+ "*-parsed.jso") +:+ "n") as E2.
    { change (String "*" (s +:+ "*-parsed.json")
              = String "*" ((s +:+ "*-parsed.jso") +:+ "n")). by rw E1. }
    by rw /site_json_files E2 E1 !Hglob. }
  split; last split; last split.
  - by rw /get_all_products Hall.
  - intros site. by rw /get_products_by_site Hsite.
  - intros site location.
    by rw /get_products_by_site_and_location /matching_results Hsite.
  - intros request w.
    rw /scrape_products /scrape_after_orchestrator /=.
    change (html_files (set_outputs_dir (dir1 ++ f :: dir2) w)) with (html_files w).
    change (html_files (set_outputs_dir (dir1 ++ dir2) w)) with (html_files w).
    by rw Hall Hbatch.
Qed.

Lemma html_entries_are_invisible_witness :
  get_all_products
    ([dmart_mumbai] ++
     {| path := "page.html"; getmtime := 1700000900; load := inl ReadError |}
     :: [zepto_pune])
  = get_all_products ([dmart_mumbai] ++ [zepto_pune]).
Proof.
  by apply (html_entries_are_invisible [dmart_mumbai] [zepto_pune]
              {| path := "page.html"; getmtime := 1700000900; load := inl ReadError |}).
Defined.

(** ** Further properties of the aggregation and of the warning *)

Lemma utf8_valid_ascii b : is_ascii b = true → Str.utf8_valid b = true.
Proof.
  induction b as [|c b IH]; first done.
  simpl. intros [Hc Hb]%andb_true_iff. rw Hc. by apply IH.
Qed.

(** X23. If the orchestrator's [stderr] is plain ASCII, its exit status
    alone never changes the response of POST /api/scrape: the response is
    that of the same run with exit status 0, and for a non-zero status
    the log starts with one warning that carries the [stderr] text, or
    [Unknown error] when [stderr] is empty. *)
Theorem scrape_warning_for_ascii_stderr
    (request : ScrapeRequest.t) (w : World) (process : Process) :
  orchestrator w = inr process →
  is_ascii (stderr process) = true →
  snd (scrape_products request w) = snd (scrape_products request (exits_zero w)) ∧
  (returncode process ≠ 0%Z →
   fst (scrape_products request w)
   = ScrapingWarning (match stderr process with
                      | EmptyString => "Unknown error"
                      | text => text
                      end)
     :: fst (scrape_products request (exits_zero w))).
Proof.
  intros Horch Hascii%utf8_valid_ascii.
  rw (scrape_products_exits_zero _ _ _ Horch) /scrape_products Horch.
  assert (error_msg process
          = inr (match stderr process with
                 | EmptyString => "Unknown error"
                 | text => text
                 end)) as Hmsg.
  { rw /error_msg /decode. destruct (stderr process); first done. by rw Hascii. }
  destruct (Z.eqb_spec (returncode process) 0) as [Hrc|Hrc]; first done.
  rw Hmsg. by destruct (scrape_after_orchestrator request w).
Qed.

Lemma scrape_warning_for_ascii_stderr_witness :
  fst (scrape_products rice_request partial_scrape)
  = ScrapingWarning "jiomart: timeout"
    :: fst (scrape_products rice_request (exits_zero partial_scrape)).
Proof.
  by apply (scrape_warning_for_ascii_stderr rice_request partial_scrape
              {| returncode := 1; stderr := "jiomart: timeout" |}).
Defined.

Lemma glob_app dir1 dir2 pattern :
  glob (dir1 ++ dir2) pattern = glob dir1 pattern ++ glob dir2 pattern.
Proof. apply List.filter_app. Qed.

Lemma all_products_of_app rs1 rs2 :
  all_products_of (rs1 ++ rs2) = all_products_of rs1 ++ all_products_of rs2.
Proof. by rw /all_products_of map_app concat_app. Qed.

(** X24. The aggregation of GET /api/products is additive over the
    directory: for a listing made of two parts, the product list is the
    product list of the first part followed by that of the second,
    [total_products] is the sum of the two, and the [total] of each site is
    the sum of its totals in the two parts (a site missing from a part
    counting 0 there). *)
Theorem get_all_products_is_additive (dir1 dir2 : list File) :
  let answer dir := snd (get_all_products dir) in
  let products_of_answer r :=
    match r with Ok body => response_products body | HTTPException _ _ => [] end in
  products_of_answer (answer (dir1 ++ dir2))
  = products_of_answer (answer dir1) ++ products_of_answer (answer dir2) ∧
  total_products_of (answer (dir1 ++ dir2))
  = total_products_of (answer dir1) + total_products_of (answer dir2) ∧
  ∀ s, default 0 (site_totals (answer (dir1 ++ dir2)) !! s)
       = default 0 (site_totals (answer dir1) !! s)
         + default 0 (site_totals (answer dir2) !! s).
Proof.
  intros answer products_of_answer.
  assert (∀ dir, products_of_answer (answer dir)
                 = all_products_of (loaded_records (glob dir "*-parsed.json"))) as Hp.
  { intros dir. rw /answer get_all_products_eq. by destruct (glob dir _). }
  assert (∀ dir, total_products_of (answer dir)
                 = sum_len_products (loaded_records (glob dir "*-parsed.json"))) as Ht.
  { intros dir. rw /answer get_all_products_eq. by destruct (glob dir _). }
  assert (∀ dir s, default 0 (site_totals (answer dir) !! s)
                   = sum_len_products
                       (with_site s (loaded_records (glob dir "*-parsed.json")))) as Hs.
  { intros dir s. rw /answer site_totals_lookup. by destruct (with_site s _). }
  split; last split.
  - by rw !Hp glob_app loaded_records_app all_products_of_app.
  - by rw !Ht glob_app loaded_records_app sum_len_products_app.
  - intros s. rw !Hs glob_app loaded_records_app /with_site filter_app.
    apply sum_len_products_app.
Qed.

(** ** GET /api/products on unvalidated JSON: properties *)

Lemma raw_load_json_files_from files log results :
  fold_left raw_load_json_file files (log, results)
  = (log ++ concat (map raw_file_errors files),
     results ++ concat (map raw_file_items files)).
Proof.
  revert log results.
  induction files as [|f files IH]; intros log results; simpl.
  - by rw !app_nil_r.
  - rw /raw_file_errors /raw_file_items.
    destruct (raw_load f) as [e|[data|data|data]]; rw IH /= -?app_assoc //.
Qed.






Lemma raw_get_to_field {A} (o : option A) (d : A) :
  raw_get (to_field o) d = Some (get o d).
Proof. by destruct o. Qed.

Lemma raw_group_result_typed sites all_products r :
  raw_group_result (kmap Some (raw_of_entry <$> sites), all_products)
                   (ItemObject (raw_of_record r))
  = inr (kmap Some (raw_of_entry <$> fst (group_result (sites, all_products) r)),
         snd (group_result (sites, all_products) r)).
Proof.
  rw /raw_group_result /group_result /= !raw_get_to_field.
  rw lookup_kmap lookup_fmap.
  destruct (sites !! get (ProductData.site r) "unknown") as [e|] eqn:E; rw /=.
  - f_equal. f_equal. rw -kmap_alter. f_equal. symmetry. by apply fmap_alter.
  - f_equal. f_equal. rw -kmap_insert -kmap_alter. f_equal.
    rw -(fmap_insert raw_of_entry _ _
           {| se_location := get (ProductData.location r) "Unknown";
              se_products := []; se_total := 0 |}).
    symmetry. by apply fmap_alter.
Qed.

Lemma raw_group_results_typed rs sites all_products :
  raw_group_results (ItemObject ∘ raw_of_record <$> rs)
                    (kmap Some (raw_of_entry <$> sites), all_products)
  = inr (kmap Some (raw_of_entry <$> fst (fold_left group_result rs (sites, all_products))),
         snd (fold_left group_result rs (sites, all_products))).
Proof.
  revert sites all_products.
  induction rs as [|r rs IH]; intros sites all_products; first done.
  cbn [fmap list_fmap raw_group_results fold_left compose].
  rw raw_group_result_typed.
  destruct (group_result (sites, all_products) r) as [sites' all']. apply IH.
Qed.

Lemma raw_of_files files :
  concat (map raw_file_items (raw_of_file <$> files))
  = (ItemObject ∘ raw_of_record <$> loaded_records files) ∧
  concat (map raw_file_errors (raw_of_file <$> files)) = read_errors files.
Proof.
  induction files as [|f files [IH1 IH2]]; first done.
  rw /loaded_records /read_errors /= -/(loaded_records files) -/(read_errors files).
  rw IH1 IH2 fmap_app /raw_file_items /raw_file_errors /file_records /file_errors /=.
  by destruct (load f) as [e|[data|data]].
Qed.

Lemma glob_raw_of_file dir pattern :
  glob_raw (raw_of_file <$> dir) pattern = raw_of_file <$> glob dir pattern.
Proof.
  induction dir as [|f dir IH]; first done.
  rw glob_cons /glob_raw /= -/(glob_raw _ pattern) IH.
  by destruct (Str.fnmatch pattern (path f)).
Qed.

(** On artifacts of the declared type the handler on unvalidated JSON is
    the typed handler: same log, same answer. *)
Lemma get_all_products_raw_typed dir :
  get_all_products_raw (raw_of_file <$> dir)
  = (fst (get_all_products dir), raw_of_response (snd (get_all_products dir))).
Proof.
  rw /get_all_products_raw /get_all_products glob_raw_of_file.
  destruct (glob dir "*-parsed.json") as [|f fs] eqn:G; first done.
  change (raw_of_file <$> f :: fs) with (raw_of_file f :: (raw_of_file <$> fs)).
  cbv iota.
  change (raw_of_file f :: (raw_of_file <$> fs)) with (raw_of_file <$> f :: fs).
  rw raw_load_json_files_from load_json_files_eq !app_nil_l.
  destruct (raw_of_files (f :: fs)) as [-> ->].
  pose proof (raw_group_results_typed (loaded_records (f :: fs)) ∅ []) as H.
  rw fmap_empty kmap_empty in H. rw H /group_results.
  destruct (fold_left group_result _ _) as [sites all].
  cbn [fst snd raw_of_response]. do 3 f_equal.
  rw -!length_map_to_list map_to_list_kmap length_fmap !length_map_to_list.
  apply map_size_fmap.
Qed.
